(** * UpdateHub agent: state machine, install pipeline, probe client, daemon loop

    A shallow embedding of

      - [updatehub/states.go]  (the state handlers),
      - [client/update.go]     (the probe client),
      - the daemon loop ([Daemon.Run]),

    followed by the properties of the update lifecycle engine.

    Conventions.
      - Go's [int], [int64] and [time.Duration] are 64-bit two's complement
        integers: they are modelled as [Z] and every arithmetic operation of
        the source that can overflow is followed by [wrap64].
      - A [time.Time] is modelled as the number of nanoseconds since the Unix
        epoch, an unbounded [Z] (the range of [time.Time] is far wider than
        that of a [time.Duration]); the monotonic clock reading is left out.
      - A Go [error] is [option string]: [None] is [nil].
      - Calls to collaborators (controller, handlers, clock, ...) are answered
        by oracles that see the whole history of calls so far, and every call
        is appended to that history, which the agent carries in the ghost
        field [trace]. *)

From Stdlib Require Import ZArith List String Ascii Bool Lia DecimalString.
From stdpp Require Import base gmap strings.
Import ListNotations.

Local Open Scope string_scope.
Local Open Scope list_scope.
Local Open Scope Z_scope.

(** ** Machine integers *)

(** Two's complement wrap-around of a 64-bit signed integer. *)
Definition wrap64 (z : Z) : Z := (z + 2 ^ 63) mod 2 ^ 64 - 2 ^ 63.

Definition MaxInt64 : Z := 2 ^ 63 - 1.
Definition MinInt64 : Z := - 2 ^ 63.

(** The verb [%d] of [fmt]: an integer in decimal. *)
Definition format_int (n : Z) : string :=
  NilZero.string_of_int (Z.to_int n).

Definition Duration := Z.
Definition Time := Z.

Definition Second : Duration := 1000000000.

(** [t.Add(d)] *)
Definition Time_Add (t : Time) (d : Duration) : Time := t + d.
(** [t.Before(u)] *)
Definition Time_Before (t u : Time) : bool := t <? u.
(** [t.Unix()]: whole seconds since the epoch, rounded down. *)
Definition Time_Unix (t : Time) : Z := t / Second.
(** [time.Unix(sec, 0)] *)
Definition time_Unix (sec : Z) : Time := sec * Second.

Definition error := option string.

(** ** States *)

(** [UpdateHubState] *)
Inductive UpdateHubState :=
| UpdateHubDummyState
| UpdateHubStateIdle
| UpdateHubStatePoll
| UpdateHubStateUpdateCheck
| UpdateHubStateDownloading
| UpdateHubStateInstalling
| UpdateHubStateInstalled
| UpdateHubStateWaitingForReboot
| UpdateHubStateExit
| UpdateHubStateError.

(** [statusNames] and [StateToString]; a missing key of the map gives the
    empty string. *)
Definition StateToString (status : UpdateHubState) : string :=
  match status with
  | UpdateHubDummyState => ""
  | UpdateHubStateIdle => "idle"
  | UpdateHubStatePoll => "poll"
  | UpdateHubStateUpdateCheck => "update-check"
  | UpdateHubStateDownloading => "downloading"
  | UpdateHubStateInstalling => "installing"
  | UpdateHubStateInstalled => "installed"
  | UpdateHubStateWaitingForReboot => "waiting-for-reboot"
  | UpdateHubStateExit => "exit"
  | UpdateHubStateError => "error"
  end.

(** An object of an update: the fields of its metadata that the state
    machine reads, and enough to tell objects apart. *)
Record Object := mkObject {
  Mode : string;
  Sha256sum : string;
  Target : string
}.

(** [metadata.UpdateMetadata].  [PackageUID] is the result of the method
    [PackageUID()], the fingerprint of the raw descriptor bytes. *)
Record UpdateMetadata := mkUpdateMetadata {
  ProductUID : string;
  Objects : list (list Object);
  PackageUID : string
}.

(** Modelled from the spec: [UpdateHubErrorReporter], [NewTransientError] and
    [NewFatalError] are declared in a file that is not among the sources.  An
    error cause is either transient or fatal, and [IsFatal] tells which. *)
Record UpdateHubErrorReporter := mkCause {
  Cause : string;
  IsFatal : bool
}.

Definition NewTransientError (err : string) : UpdateHubErrorReporter :=
  {| Cause := err; IsFatal := false |}.

Definition NewFatalError (err : string) : UpdateHubErrorReporter :=
  {| Cause := err; IsFatal := true |}.

(** The implementations of the [State] interface, as a tagged union. The
    collaborators that [InstallingState] embeds are part of
    [Collaborators] below. *)
Inductive State :=
| IdleState
| PollState (interval : Duration) (ticksCount : Z)
| UpdateCheckState
| DownloadingState (updateMetadata : UpdateMetadata)
| InstallingState (updateMetadata : UpdateMetadata)
| WaitingForRebootState (updateMetadata : UpdateMetadata)
| InstalledState (updateMetadata : UpdateMetadata)
| ExitState (exitCode : Z)
| ErrorState (cause : UpdateHubErrorReporter)
             (updateMetadata : option UpdateMetadata).

(** [ID()] *)
Definition ID (s : State) : UpdateHubState :=
  match s with
  | IdleState => UpdateHubStateIdle
  | PollState _ _ => UpdateHubStatePoll
  | UpdateCheckState => UpdateHubStateUpdateCheck
  | DownloadingState _ => UpdateHubStateDownloading
  | InstallingState _ => UpdateHubStateInstalling
  | WaitingForRebootState _ => UpdateHubStateWaitingForReboot
  | InstalledState _ => UpdateHubStateInstalled
  | ExitState _ => UpdateHubStateExit
  | ErrorState _ _ => UpdateHubStateError
  end.

Definition NewIdleState : State := IdleState.
Definition NewUpdateCheckState : State := UpdateCheckState.
Definition NewDownloadingState (um : UpdateMetadata) : State :=
  DownloadingState um.
Definition NewInstallingState (um : UpdateMetadata) : State :=
  InstallingState um.
Definition NewWaitingForRebootState (um : UpdateMetadata) : State :=
  WaitingForRebootState um.
Definition NewInstalledState (um : UpdateMetadata) : State :=
  InstalledState um.
Definition NewExitState (exitCode : Z) : State := ExitState exitCode.

(** [NewErrorState]: a nil cause becomes a fatal "generic error". *)
Definition NewErrorState (um : option UpdateMetadata)
    (err : option UpdateHubErrorReporter) : State :=
  match err with
  | None => ErrorState (NewFatalError "generic error") um
  | Some cause => ErrorState cause um
  end.

(** ** History of calls *)

(** A signal that reaches the goroutine of [PollState.Handle]: a tick of its
    ticker, or a value on the state's cancel channel. *)
Inductive Signal := Tick | CancelSignal.

Inductive Event :=
| EvReport (s : State)
| EvHandle (s : State)
| EvNow (t : Time)
| EvCheckUpdate (retries : Z) (um : option UpdateMetadata) (extraPoll : Duration)
| EvFetchUpdate (um : UpdateMetadata) (err : error)
| EvCheckSupportedHardware (um : UpdateMetadata) (err : error)
| EvActive (index : Z) (err : error)
| EvSetActive (index : Z) (err : error)
| EvCheckSha256sum (o : Object) (err : error)
| EvSetup (o : Object) (err : error)
| EvProceed (o : Object) (install : bool) (err : error)
| EvInstall (o : Object) (err : error)
| EvCleanup (o : Object) (err : error)
| EvWait (s : State)
| EvPoll (signals : list Signal).

(** The collaborators of the state machine.  Each answers from the history
    of calls made so far. *)
Record Collaborators := mkCollaborators {
  time_Now : list Event -> Time;
  Controller_CheckUpdate : list Event -> Z -> option UpdateMetadata * Duration;
  Controller_FetchUpdate : list Event -> UpdateMetadata -> error;
  CheckSupportedHardware : list Event -> UpdateMetadata -> error;
  CheckDownloadedObjectSha256sum : list Event -> string -> string -> error;
  InstallIfDifferent_Proceed : list Event -> Object -> bool * error;
  handler_Setup : list Event -> Object -> error;
  handler_Install : list Event -> Object -> string -> error;
  handler_Cleanup : list Event -> Object -> error;
  activeInactive_Active : list Event -> Z * error;
  activeInactive_SetActive : list Event -> Z -> error;
  poll_signals : list Event -> list Signal;
  daemon_stop : list Event -> bool
}.

(** ** The agent *)

Record Settings := mkSettings {
  PollingEnabled : bool;
  PollingInterval : Duration;
  ExtraPollingInterval : Duration;
  FirstPoll : Time;
  LastPoll : Time;
  PollingRetries : Z;
  DownloadDir : string
}.

(** [UpdateHub]; [trace] is the ghost history of calls. *)
Record UpdateHub := mkUpdateHub {
  settings : Settings;
  lastInstalledPackageUID : string;
  TimeStep : Duration;
  trace : list Event
}.

Definition record (e : Event) (uh : UpdateHub) : UpdateHub :=
  {| settings := settings uh;
     lastInstalledPackageUID := lastInstalledPackageUID uh;
     TimeStep := TimeStep uh;
     trace := trace uh ++ [e] |}.

Definition set_settings (s : Settings) (uh : UpdateHub) : UpdateHub :=
  {| settings := s;
     lastInstalledPackageUID := lastInstalledPackageUID uh;
     TimeStep := TimeStep uh;
     trace := trace uh |}.

Definition set_lastInstalledPackageUID (uid : string) (uh : UpdateHub)
    : UpdateHub :=
  {| settings := settings uh;
     lastInstalledPackageUID := uid;
     TimeStep := TimeStep uh;
     trace := trace uh |}.

Definition set_PollingRetries (n : Z) (s : Settings) : Settings :=
  {| PollingEnabled := PollingEnabled s;
     PollingInterval := PollingInterval s;
     ExtraPollingInterval := ExtraPollingInterval s;
     FirstPoll := FirstPoll s;
     LastPoll := LastPoll s;
     PollingRetries := n;
     DownloadDir := DownloadDir s |}.

Definition set_LastPoll (t : Time) (s : Settings) : Settings :=
  {| PollingEnabled := PollingEnabled s;
     PollingInterval := PollingInterval s;
     ExtraPollingInterval := ExtraPollingInterval s;
     FirstPoll := FirstPoll s;
     LastPoll := t;
     PollingRetries := PollingRetries s;
     DownloadDir := DownloadDir s |}.

Definition set_ExtraPollingInterval (d : Duration) (s : Settings) : Settings :=
  {| PollingEnabled := PollingEnabled s;
     PollingInterval := PollingInterval s;
     ExtraPollingInterval := d;
     FirstPoll := FirstPoll s;
     LastPoll := LastPoll s;
     PollingRetries := PollingRetries s;
     DownloadDir := DownloadDir s |}.

(** What running a piece of Go code gives: it returns, it panics, or the
    fuel given to its loops ran out before it returned. *)
Inductive Outcome (A : Type) :=
| Returned (a : A)
| Panicked (msg : string)
| OutOfFuel.
Arguments Returned {A} a.
Arguments Panicked {A} msg.
Arguments OutOfFuel {A}.

(** ** Handlers of [states.go] *)

Section Handlers.

Variable c : Collaborators.

(** [time.Now()] *)
Definition Now (uh : UpdateHub) : Time * UpdateHub :=
  let t := time_Now c (trace uh) in (t, record (EvNow t) uh).

(** [ErrorState.Handle] *)
Definition ErrorState_Handle (cause : UpdateHubErrorReporter)
    (uh : UpdateHub) : State * UpdateHub :=
  if IsFatal cause then (NewExitState 1, uh) else (NewIdleState, uh).

(** [NewPollState] *)
Definition NewPollState (uh : UpdateHub) : State :=
  PollState (PollingInterval (settings uh)) 0.

(** [IdleState.Handle].  With polling disabled the handler blocks in
    [Wait] until the state is cancelled and hands back the state itself. *)
Definition IdleState_Handle (uh : UpdateHub) : State * UpdateHub :=
  if negb (PollingEnabled (settings uh)) then
    (IdleState, record (EvWait IdleState) uh)
  else
    let '(now, uh) := Now uh in
    if (0 <? ExtraPollingInterval (settings uh))
       && Time_Before
            (Time_Add (LastPoll (settings uh))
                      (ExtraPollingInterval (settings uh))) now
    then (NewUpdateCheckState, uh)
    else (NewPollState uh, uh).

(** The result of the goroutine of [PollState.Handle] on a finite sequence
    of signals. *)
Inductive PollResult :=
| Fired (ticks : Z)
| Waiting (ticks : Z)
| TickerPanic
| DivideByZero.

(** The loop labelled [polling].  Every iteration creates a ticker, and
    [time.NewTicker] panics when its argument is not positive.  On a tick,
    [ticks%int64(interval/TimeStep)] is evaluated only when [ticks > 0]; the
    division and the remainder truncate towards zero, and a zero divisor is
    a run-time panic.  A value on the cancel channel leaves the [select]
    only: the loop goes on. *)
Fixpoint polling (timeStep interval : Duration) (signals : list Signal)
    (ticks : Z) : PollResult :=
  if timeStep <=? 0 then TickerPanic else
  match signals with
  | [] => Waiting ticks
  | Tick :: rest =>
      let ticks := wrap64 (ticks + 1) in
      if 0 <? ticks then
        let every := wrap64 (Z.quot interval timeStep) in
        if every =? 0 then DivideByZero
        else if Z.rem ticks every =? 0 then Fired ticks
        else polling timeStep interval rest ticks
      else polling timeStep interval rest ticks
  | CancelSignal :: rest => polling timeStep interval rest ticks
  end.

(** [PollState.Handle].  The signals that reach the goroutine before the
    handler's own [Wait] is released are given by the oracle.  When the loop
    fires, the goroutine releases [Wait] and the handler returns the
    update-check state; when the signals run out first, [Wait] was released
    from outside and the handler returns the poll state as it was. *)
Definition PollState_Handle (interval : Duration) (ticksCount : Z)
    (uh : UpdateHub) : Outcome (State * UpdateHub) :=
  let signals := poll_signals c (trace uh) in
  let uh := record (EvPoll signals) uh in
  match polling (TimeStep uh) interval signals ticksCount with
  | Fired _ => Returned (NewUpdateCheckState, uh)
  | Waiting _ => Returned (PollState interval ticksCount, uh)
  | TickerPanic => Panicked "non-positive interval for NewTicker"
  | DivideByZero => Panicked "integer divide by zero"
  end.

(** The loop [for nextPoll.Before(now) { nextPoll = nextPoll.Add(interval) }]
    of [UpdateCheckState.Handle], with fuel for its iterations. *)
Fixpoint advance_nextPoll (fuel : nat) (interval : Duration) (now : Time)
    (nextPoll : Time) : option Time :=
  if Time_Before nextPoll now then
    match fuel with
    | O => None
    | S fuel => advance_nextPoll fuel interval now (Time_Add nextPoll interval)
    end
  else Some nextPoll.

(** [UpdateCheckState.Handle] *)
Definition UpdateCheckState_Handle (fuel : nat) (uh : UpdateHub)
    : Outcome (State * UpdateHub) :=
  let retries := PollingRetries (settings uh) in
  let '(updateMetadata, extraPoll) :=
    Controller_CheckUpdate c (trace uh) retries in
  let uh := record (EvCheckUpdate retries updateMetadata extraPoll) uh in
  (* Reset polling retries in case of CheckUpdate success *)
  let uh :=
    if negb (extraPoll =? -1)
    then set_settings (set_PollingRetries 0 (settings uh)) uh
    else uh in
  let '(t, uh) := Now uh in
  let uh := set_settings (set_LastPoll t (settings uh)) uh in
  let uh := set_settings (set_ExtraPollingInterval 0 (settings uh)) uh in
  let idle (uh : UpdateHub) :=
    (* Increment the number of polling retries in case of CheckUpdate
       failure *)
    let uh :=
      set_settings
        (set_PollingRetries (wrap64 (PollingRetries (settings uh) + 1))
                            (settings uh)) uh in
    Returned (NewIdleState, uh) in
  match updateMetadata with
  | Some um => Returned (NewDownloadingState um, uh)
  | None =>
      if 0 <? extraPoll then
        let '(now, uh) := Now uh in
        let nextPoll := time_Unix (Time_Unix (FirstPoll (settings uh))) in
        let extraPollTime := Time_Add now extraPoll in
        match advance_nextPoll fuel (PollingInterval (settings uh)) now
                nextPoll with
        | None => OutOfFuel
        | Some nextPoll =>
            if Time_Before extraPollTime nextPoll then
              let uh :=
                set_settings
                  (set_ExtraPollingInterval extraPoll (settings uh)) uh in
              Returned (PollState extraPoll 0, uh)
            else idle uh
        end
      else idle uh
  end.

(** [DownloadingState.Handle] *)
Definition DownloadingState_Handle (um : UpdateMetadata) (uh : UpdateHub)
    : State * UpdateHub :=
  let err := Controller_FetchUpdate c (trace uh) um in
  let uh := record (EvFetchUpdate um err) uh in
  match err with
  | Some e => (NewErrorState (Some um) (Some (NewTransientError e)), uh)
  | None => (NewInstallingState um, uh)
  end.

(** [GetIndexOfObjectToBeInstalled] *)
Definition GetIndexOfObjectToBeInstalled (um : UpdateMetadata)
    (uh : UpdateHub) : (Z * error) * UpdateHub :=
  let len := Z.of_nat (length (Objects um)) in
  if (len <? 1) || (2 <? len) then
    ((0, Some ("update metadata must have 1 or 2 objects. Found "
               ++ format_int len)%string), uh)
  else if len =? 2 then
    (* 2 objects means that ActiveInactive is enabled *)
    let '(activeIndex, err) := activeInactive_Active c (trace uh) in
    let uh := record (EvActive activeIndex err) uh in
    match err with
    | Some e => ((0, Some e), uh)
    | None =>
        let inactiveIndex := wrap64 (wrap64 (activeIndex - 1) * -1) in
        ((inactiveIndex, None), uh)
    end
  else ((0, None), uh).

(** Modelled from the spec: [utils.MergeErrorList] is declared in a file that
    is not among the sources; it merges the collected errors into one. *)
Definition MergeErrorList (errorList : list string) : string :=
  String.concat "; " errorList.

Definition collect (errorList : list string) (err : error) : list string :=
  match err with
  | Some e => errorList ++ [e]
  | None => errorList
  end.

(** The body of [for _, o := range Objects[indexToInstall]] in
    [InstallingState.Handle], and what follows the loop. *)
Fixpoint install_objects (um : UpdateMetadata) (indexToInstall : Z)
    (objects : list Object) (uh : UpdateHub) : State * UpdateHub :=
  match objects with
  | [] => (NewInstalledState um, uh)
  | o :: rest =>
      let failed (e : string) (uh : UpdateHub) :=
        (NewErrorState (Some um) (Some (NewTransientError e)), uh) in
      let err :=
        CheckDownloadedObjectSha256sum c (trace uh)
          (DownloadDir (settings uh)) (Sha256sum o) in
      let uh := record (EvCheckSha256sum o err) uh in
      match err with
      | Some e => failed e uh
      | None =>
          let err := handler_Setup c (trace uh) o in
          let uh := record (EvSetup o err) uh in
          match err with
          | Some e => failed e uh
          | None =>
              let '(install, err) :=
                InstallIfDifferent_Proceed c (trace uh) o in
              let uh := record (EvProceed o install err) uh in
              let errorList := collect [] err in
              let '(errorList, uh) :=
                if install then
                  let err :=
                    handler_Install c (trace uh) o
                      (DownloadDir (settings uh)) in
                  (collect errorList err, record (EvInstall o err) uh)
                else (errorList, uh) in
              let err := handler_Cleanup c (trace uh) o in
              let uh := record (EvCleanup o err) uh in
              let errorList := collect errorList err in
              if (0 <? length errorList)%nat then
                failed (MergeErrorList errorList) uh
              else if (length (Objects um) =? 2)%nat then
                (* 2 objects means that ActiveInactive is enabled, so we
                   need to set the new active object *)
                let err := activeInactive_SetActive c (trace uh)
                             indexToInstall in
                let uh := record (EvSetActive indexToInstall err) uh in
                match err with
                | Some e => failed e uh
                | None => install_objects um indexToInstall rest uh
                end
              else install_objects um indexToInstall rest uh
          end
      end
  end.

(** [Objects[indexToInstall]]: an index out of range is a run-time panic. *)
Definition index_Objects (um : UpdateMetadata) (i : Z)
    : option (list Object) :=
  if i <? 0 then None else nth_error (Objects um) (Z.to_nat i).

(** [InstallingState.Handle] *)
Definition InstallingState_Handle (um : UpdateMetadata) (uh : UpdateHub)
    : Outcome (State * UpdateHub) :=
  let packageUID := PackageUID um in
  if String.eqb packageUID (lastInstalledPackageUID uh) then
    Returned (NewWaitingForRebootState um, uh)
  else
    (* register the packageUID at the start so it won't redo the
       operations in case of an install error occurs *)
    let uh := set_lastInstalledPackageUID packageUID uh in
    let err := CheckSupportedHardware c (trace uh) um in
    let uh := record (EvCheckSupportedHardware um err) uh in
    match err with
    | Some e =>
        Returned (NewErrorState (Some um) (Some (NewTransientError e)), uh)
    | None =>
        let '((indexToInstall, err), uh) :=
          GetIndexOfObjectToBeInstalled um uh in
        match err with
        | Some e =>
            Returned
              (NewErrorState (Some um) (Some (NewTransientError e)), uh)
        | None =>
            match index_Objects um indexToInstall with
            | None => Panicked "index out of range"
            | Some objects =>
                Returned (install_objects um indexToInstall objects uh)
            end
        end
    end.

(** [WaitingForRebootState.Handle] and [InstalledState.Handle] *)
Definition WaitingForRebootState_Handle (uh : UpdateHub)
    : State * UpdateHub := (NewIdleState, uh).

Definition InstalledState_Handle (uh : UpdateHub) : State * UpdateHub :=
  (NewIdleState, uh).

(** [Handle], dispatched on the implementation of the interface. *)
Definition Handle (fuel : nat) (s : State) (uh : UpdateHub)
    : Outcome (State * UpdateHub) :=
  match s with
  | IdleState => Returned (IdleState_Handle uh)
  | PollState interval ticksCount => PollState_Handle interval ticksCount uh
  | UpdateCheckState => UpdateCheckState_Handle fuel uh
  | DownloadingState um => Returned (DownloadingState_Handle um uh)
  | InstallingState um => InstallingState_Handle um uh
  | WaitingForRebootState _ => Returned (WaitingForRebootState_Handle uh)
  | InstalledState _ => Returned (InstalledState_Handle uh)
  | ExitState _ => Panicked "ExitState handler should not be called"
  | ErrorState cause _ => Returned (ErrorState_Handle cause uh)
  end.

(** [Daemon.Run], with fuel for the iterations of its loop.  The flag
    [stop] is set from outside by [Stop]; what the loop reads is given by
    the oracle.  Returns the exit code and the state the agent is left
    in. *)
Fixpoint Daemon_Run (fuel : nat) (state : State) (uh : UpdateHub)
    : Outcome (Z * State * UpdateHub) :=
  match fuel with
  | O => OutOfFuel
  | S fuel' =>
      let uh := record (EvReport state) uh in
      let uh := record (EvHandle state) uh in
      match Handle fuel state uh with
      | Returned (state, uh) =>
          if daemon_stop c (trace uh)
             || match ID state with UpdateHubStateExit => true | _ => false end
          then
            match state with
            | ExitState exitCode => Returned (exitCode, state, uh)
            | _ => Returned (0, state, uh)
            end
          else Daemon_Run fuel' state uh
      | Panicked msg => Panicked msg
      | OutOfFuel => OutOfFuel
      end
  end.

End Handlers.

(** ** The probe client of [client/update.go] *)

Module Client.

(** [http.Response], as far as the client reads it.  [BodyReadError] is the
    error of reading the body, if any. *)
Record Response := mkResponse {
  StatusCode : Z;
  Header : gmap string (list string);
  Body : string;
  BodyReadError : error
}.

Record Request := mkRequest {
  Method : string;
  URL : string;
  RequestHeader : gmap string (list string);
  RequestBody : string
}.

Definition StatusOK : Z := 200.
Definition StatusNotFound : Z := 404.

(** [strconv.ParseInt(s, 10, 0)] on a 64-bit target: an optional sign, then
    one or more decimal digits, the value in the range of [int64]; anything
    else is an error. *)
Definition digit (a : ascii) : option Z :=
  let n := Z.of_nat (nat_of_ascii a) in
  if (48 <=? n) && (n <=? 57) then Some (n - 48) else None.

Fixpoint digits (s : string) (acc : Z) : option Z :=
  match s with
  | EmptyString => Some acc
  | String a rest =>
      match digit a with
      | Some d => digits rest (acc * 10 + d)
      | None => None
      end
  end.

Definition ParseInt (s : string) : option Z :=
  match s with
  | EmptyString => None
  | String a rest =>
      let '(neg, body) :=
        if Ascii.eqb a "+" then (false, rest)
        else if Ascii.eqb a "-" then (true, rest)
        else (false, s) in
      match body with
      | EmptyString => None
      | _ =>
          match digits body 0 with
          | None => None
          | Some un =>
              if neg then (if un <=? 2 ^ 63 then Some (- un) else None)
              else (if un <? 2 ^ 63 then Some un else None)
          end
      end
  end.

(** [strings.Join(v, sep)] *)
Definition Join (v : list string) (sep : string) : string :=
  String.concat sep v.

Section Probe.

(** [metadata.NewUpdateMetadata], [json.Marshal], [serverURL] and
    [http.NewRequest] are not among the sources: they are taken as they
    come. *)
Variable Data : Type.
Variable ApiClient : Type.
Variable NewUpdateMetadata : string -> UpdateMetadata + string.
Variable json_Marshal : Data -> string.
Variable serverURL : ApiClient -> string -> string.
Variable http_NewRequest : string -> string -> string -> Request + string.

(** [ApiRequester] *)
Record ApiRequester := mkApiRequester {
  api_Client : ApiClient;
  Do : Request -> Response + string
}.

(** [processUpgradeResponse] *)
Definition processUpgradeResponse (res : Response)
    : option UpdateMetadata * error :=
  match BodyReadError res with
  | Some e => (None, Some ("error reading response body: " ++ e)%string)
  | None =>
      if StatusCode res =? StatusOK then
        match NewUpdateMetadata (Body res) with
        | inr e => (None, Some ("failed to parse upgrade response: " ++ e)%string)
        | inl data => (Some data, None)
        end
      else if StatusCode res =? StatusNotFound then
        (* NotFound is not an error in this case, just means there is no
           update available *)
        (None, None)
      else
        (None,
         Some ("invalid response received from the server. Status "
               ++ format_int (StatusCode res))%string)
  end.

Definition set_Header (key value : string) (req : Request) : Request :=
  {| Method := Method req;
     URL := URL req;
     RequestHeader := <[key := [value]]> (RequestHeader req);
     RequestBody := RequestBody req |}.

(** [UpdateClient.CheckUpdate] *)
Definition CheckUpdate (api : option ApiRequester) (uri : string)
    (data : Data) : option UpdateMetadata * Duration * error :=
  match api with
  | None => (None, 0, Some "invalid api requester")
  | Some api =>
      let rawJSON := json_Marshal data in
      let url := serverURL (api_Client api) uri in
      match http_NewRequest "POST" url rawJSON with
      | inr _ => (None, 0, Some "failed to create check update request")
      | inl req =>
          let req := set_Header "Content-Type" "application/json" req in
          match Do api req with
          | inr _ => (None, 0, Some "check update request failed")
          | inl res =>
              let '(r, err) := processUpgradeResponse res in
              match err with
              | Some _ => (r, 0, err)
              | None =>
                  match Header res !! "Add-Extra-Poll" with
                  | Some v =>
                      match ParseInt (Join v "") with
                      | None =>
                          (None, 0,
                           Some "failed to parse extra poll header")
                      | Some extraPoll => (r, extraPoll, None)
                      end
                  | None => (r, 0, None)
                  end
              end
          end
      end
  end.

End Probe.

Arguments mkApiRequester {ApiClient} _ _.
Arguments api_Client {ApiClient} _.
Arguments Do {ApiClient} _ _.

End Client.

(** ** Reading the history *)

(** The events between the [Setup] and the [Cleanup] of an object: the
    [InstallIfDifferent] check and the [Install] of that object. *)
Definition install_step (o : Object) (e : Event) : Prop :=
  match e with
  | EvProceed o' _ _ => o' = o
  | EvInstall o' _ => o' = o
  | _ => False
  end.

(** The events of one run of the object loop, as the loop produces them:
    per object a sha256 check, [Setup], the install steps, [Cleanup] and,
    maybe, [SetActive]; the run stops at the first failure. *)
Inductive LoopTrace : list Event -> Prop :=
| LoopDone : LoopTrace []
| LoopShaFailed o e : LoopTrace [EvCheckSha256sum o (Some e)]
| LoopSetupFailed o e :
    LoopTrace [EvCheckSha256sum o None; EvSetup o (Some e)]
| LoopObject o mid err switch rest :
    Forall (install_step o) mid ->
    (switch = [] \/ exists i e, switch = [EvSetActive i e]) ->
    LoopTrace rest ->
    LoopTrace (EvCheckSha256sum o None :: EvSetup o None
                 :: mid ++ EvCleanup o err :: switch ++ rest).

(** The events of a handler: everything but the daemon's own. *)
Definition handler_event (e : Event) : Prop :=
  match e with
  | EvReport _ | EvHandle _ => False
  | _ => True
  end.

(** The states reported, and the states handled, in a history. *)
Fixpoint reported (evs : list Event) : list State :=
  match evs with
  | [] => []
  | EvReport s :: evs => s :: reported evs
  | _ :: evs => reported evs
  end.

Fixpoint handled (evs : list Event) : list State :=
  match evs with
  | [] => []
  | EvHandle s :: evs => s :: handled evs
  | _ :: evs => handled evs
  end.

Definition is_tick (s : Signal) : bool :=
  match s with Tick => true | CancelSignal => false end.

(** The number of ticks among the signals. *)
Definition ticks_of (signals : list Signal) : Z :=
  Z.of_nat (length (filter is_tick signals)).

Definition int64 (z : Z) : Prop := MinInt64 <= z <= MaxInt64.

(** The events that precede the object loop in [InstallingState.Handle]. *)
Definition prologue_event (e : Event) : Prop :=
  match e with
  | EvCheckSupportedHardware _ _ | EvActive _ _ => True
  | _ => False
  end.

(** The events of a run of the daemon loop: per iteration the report of
    the current state, the call of its handler and the events of that
    handler.  The handler of an exit state does not return. *)
Inductive RunTrace : list Event -> Prop :=
| RunEnd : RunTrace []
| RunStep s hevs rest :
    ID s <> UpdateHubStateExit ->
    Forall handler_event hevs ->
    RunTrace rest ->
    RunTrace (EvReport s :: EvHandle s :: hevs ++ rest).

(** The exit code that [Daemon.Run] returns for the state it ends in. *)
Definition exit_code (final : State) : Z :=
  match final with
  | ExitState exitCode => exitCode
  | _ => 0
  end.

(** ** Scenarios *)

Definition objA : Object := mkObject "copy" "aaaa" "/dev/xx1".
Definition objB : Object := mkObject "copy" "bbbb" "/dev/xx2".
Definition objC : Object := mkObject "raw" "cccc" "/dev/xx3".

Definition single_um : UpdateMetadata :=
  mkUpdateMetadata "product" [[objA]] "uid-1".
Definition two_slot_um : UpdateMetadata :=
  mkUpdateMetadata "product" [[objA]; [objB; objC]] "uid-2".
Definition no_group_um : UpdateMetadata :=
  mkUpdateMetadata "product" [] "uid-0".

Definition settings0 (retries : Z) : Settings :=
  mkSettings true (10 * Second) 0 0 0 retries "/tmp/download".

Definition agent (retries : Z) (lastInstalled : string) : UpdateHub :=
  mkUpdateHub (settings0 retries) lastInstalled Second [].

(** Collaborators that differ in the clock, in the answer of the probe and
    in the results of [Setup] and [Install]; everything else succeeds, slot
    0 is active and [InstallIfDifferent] says "install". *)
Definition collaborators (clock : list Event -> Time)
    (probe : option UpdateMetadata * Duration)
    (setup install : Object -> error) : Collaborators :=
  {| time_Now := clock;
     Controller_CheckUpdate := fun _ _ => probe;
     Controller_FetchUpdate := fun _ _ => None;
     CheckSupportedHardware := fun _ _ => None;
     CheckDownloadedObjectSha256sum := fun _ _ _ => None;
     InstallIfDifferent_Proceed := fun _ _ => (true, None);
     handler_Setup := fun _ o => setup o;
     handler_Install := fun _ o _ => install o;
     handler_Cleanup := fun _ _ => None;
     activeInactive_Active := fun _ => (0, None);
     activeInactive_SetActive := fun _ _ => None;
     poll_signals := fun _ => [];
     daemon_stop := fun _ => false |}.

Definition all_good : Collaborators :=
  collaborators (fun _ => 0) (None, 0) (fun _ => None) (fun _ => None).

Definition setup_fails : Collaborators :=
  collaborators (fun _ => 0) (None, 0)
    (fun _ => Some "setup failed") (fun _ => None).

Definition last_install_fails : Collaborators :=
  collaborators (fun _ => 0) (None, 0) (fun _ => None)
    (fun o => if String.eqb (Sha256sum o) "cccc"
              then Some "write failed" else None).

(** A clock that advances by 5 with every call made. *)
Definition ticking_clock (history : list Event) : Time :=
  100 + 5 * Z.of_nat (length history).

Definition update_with_sentinel : Collaborators :=
  collaborators ticking_clock (Some single_um, -1)
    (fun _ => None) (fun _ => None).

Definition extra_poll (d : Duration) : Collaborators :=
  collaborators (fun _ => 100 * Second) (None, d)
    (fun _ => None) (fun _ => None).

Definition with_PollingInterval (d : Duration) (uh : UpdateHub) : UpdateHub :=
  set_settings
    {| PollingEnabled := PollingEnabled (settings uh);
       PollingInterval := d;
       ExtraPollingInterval := ExtraPollingInterval (settings uh);
       FirstPoll := FirstPoll (settings uh);
       LastPoll := LastPoll (settings uh);
       PollingRetries := PollingRetries (settings uh);
       DownloadDir := DownloadDir (settings uh) |} uh.

(** A server for the probe client: every request is answered with the
    given response. *)
Definition server (res : Client.Response) : Client.ApiRequester unit :=
  Client.mkApiRequester tt (fun _ => inl res).

Definition plain_request (method url body : string)
    : Client.Request + string :=
  inl (Client.mkRequest method url ∅ body).

(** The probe of the scenarios: the descriptor parser accepts every body,
    the request is built as it comes. *)
Definition probe (res : Client.Response)
    : option UpdateMetadata * Duration * error :=
  Client.CheckUpdate unit unit (fun _ => inl single_um) (fun _ => "{}")
    (fun _ uri => uri) plain_request (Some (server res)) "/upgrades" tt.

Definition no_update (extraPoll : list string) : Client.Response :=
  Client.mkResponse 404 {[ "Add-Extra-Poll" := extraPoll ]} "" None.

(** ** The claims that the code does not meet, as they are stated *)

(** Cleanup is invoked for every object whose Setup is invoked, whether
    Setup succeeded or failed. *)
Definition cleanup_after_every_setup : Prop :=
  forall c um uh st uh' evs,
    InstallingState_Handle c um uh = Returned (st, uh') ->
    trace uh' = trace uh ++ evs ->
    forall o err, In (EvSetup o err) evs ->
      exists err', In (EvCleanup o err') evs.

(** An object-group count outside {1, 2} gives a fatal error, and so
    Exit(1). *)
Definition bad_count_is_fatal : Prop :=
  forall c um uh cause d uh',
    length (Objects um) <> 1%nat -> length (Objects um) <> 2%nat ->
    InstallingState_Handle c um uh = Returned (ErrorState cause d, uh') ->
    IsFatal cause = true /\
    fst (ErrorState_Handle cause uh') = ExitState 1.

(** After UpdateCheck returns Idle, the retries are those at entry
    plus 1. *)
Definition idle_adds_one_retry : Prop :=
  forall c fuel uh uh',
    UpdateCheckState_Handle c fuel uh = Returned (IdleState, uh') ->
    PollingRetries (settings uh') = PollingRetries (settings uh) + 1.

(** After UpdateCheck returns Downloading there are no retries, and the
    last poll is the time at handler entry. *)
Definition downloading_resets_retries : Prop :=
  forall c fuel uh um uh',
    UpdateCheckState_Handle c fuel uh = Returned (DownloadingState um, uh') ->
    PollingRetries (settings uh') = 0.

Definition downloading_last_poll_at_entry : Prop :=
  forall c fuel uh um uh',
    UpdateCheckState_Handle c fuel uh = Returned (DownloadingState um, uh') ->
    LastPoll (settings uh') = time_Now c (trace uh).

(** Every state that is entered, the one the loop ends in included, is
    reported before the loop ends. *)
Definition every_entered_state_reported : Prop :=
  forall c fuel state uh code final uh' evs,
    Daemon_Run c fuel state uh = Returned (code, final, uh') ->
    trace uh' = trace uh ++ evs ->
    In final (reported evs).

(** A probe whose exchange succeeds is never an error because of the
    header: when the header is absent or malformed the extra poll is zero
    and the result of the exchange is returned. *)
Definition missing_or_malformed_header_is_zero : Prop :=
  forall (Data ApiClient : Type) NewUpdateMetadata json_Marshal serverURL
         http_NewRequest (api : Client.ApiRequester ApiClient) uri
         (data : Data) req res r,
    http_NewRequest "POST" (serverURL (Client.api_Client api) uri)
      (json_Marshal data) = inl req ->
    Client.Do api (Client.set_Header "Content-Type" "application/json" req)
    = inl res ->
    Client.processUpgradeResponse NewUpdateMetadata res = (r, None) ->
    (Client.Header res !! "Add-Extra-Poll" = None \/
     exists v, Client.Header res !! "Add-Extra-Poll" = Some v /\
               Client.ParseInt (Client.Join v "") = None) ->
    Client.CheckUpdate Data ApiClient NewUpdateMetadata json_Marshal
      serverURL http_NewRequest (Some api) uri data
    = (r, 0, None).

(** A probe whose exchange succeeds, with a header that holds the integer
    [n], returns the duration of [n] seconds. *)
Definition well_formed_header_is_seconds : Prop :=
  forall (Data ApiClient : Type) NewUpdateMetadata json_Marshal serverURL
         http_NewRequest (api : Client.ApiRequester ApiClient) uri
         (data : Data) req res r v n,
    http_NewRequest "POST" (serverURL (Client.api_Client api) uri)
      (json_Marshal data) = inl req ->
    Client.Do api (Client.set_Header "Content-Type" "application/json" req)
    = inl res ->
    Client.processUpgradeResponse NewUpdateMetadata res = (r, None) ->
    Client.Header res !! "Add-Extra-Poll" = Some v ->
    Client.ParseInt (Client.Join v "") = Some n ->
    Client.CheckUpdate Data ApiClient NewUpdateMetadata json_Marshal
      serverURL http_NewRequest (Some api) uri data
    = (r, n * Second, None).

(** The tick arithmetic of the poll is total only when the interval is at
    least the time step. *)
Definition poll_total_only_from_time_step : Prop :=
  forall timeStep interval,
    int64 timeStep -> int64 interval -> 0 < timeStep ->
    (forall signals,
       polling timeStep interval signals 0 <> DivideByZero) ->
    timeStep <= interval.

(** ** The rest of the sources *)

Section Sha256Checker.

(** [utils.FileSha256sum] on the file system backend and [path.Join] are
    not among the sources: they are taken as they come. *)
Variable FileSha256sum : string -> string * error.
Variable path_Join : string -> string -> string.

(** [Sha256CheckerImpl.CheckDownloadedObjectSha256sum] *)
Definition Sha256CheckerImpl_CheckDownloadedObjectSha256sum
    (downloadDir expectedSha256sum : string) : error :=
  let '(calculatedSha256sum, err) :=
    FileSha256sum (path_Join downloadDir expectedSha256sum) in
  match err with
  | Some e => Some e
  | None =>
      if negb (String.eqb calculatedSha256sum expectedSha256sum) then
        Some ("sha256sum's don't match. Expected: " ++ expectedSha256sum
              ++ " / Calculated: " ++ calculatedSha256sum)%string
      else None
  end.

End Sha256Checker.

Section Fetch.

Variable ApiClient : Type.
Variable serverURL : ApiClient -> string -> string.
Variable http_NewRequest : string -> string -> string -> Client.Request + string.
(** The field [ContentLength] of a response. *)
Variable ContentLength : Client.Response -> Z.

(** What [UpdateClient.FetchUpdate] returns: the body to read from (or
    nil), the length, and the error; [body_closed] tells whether the
    function closed the body of the response. *)
Record Fetched := mkFetched {
  fetched_body : option string;
  fetched_length : Z;
  fetched_error : error;
  body_closed : bool
}.

(** [UpdateClient.FetchUpdate] *)
Definition FetchUpdate (api : option (Client.ApiRequester ApiClient))
    (uri : string) : Fetched :=
  match api with
  | None => mkFetched None (-1) (Some "invalid api requester") false
  | Some api =>
      let url := serverURL (Client.api_Client api) uri in
      match http_NewRequest "GET" url "" with
      | inr e =>
          mkFetched None (-1)
            (Some ("failed to create fetch update request: " ++ e)%string)
            false
      | inl req =>
          match Client.Do api req with
          | inr e =>
              mkFetched None (-1)
                (Some ("fetch update request failed: " ++ e)%string) false
          | inl res =>
              if negb (Client.StatusCode res =? Client.StatusOK) then
                mkFetched None (-1)
                  (Some "failed to fetch update. maybe the file is missing?")
                  true
              else
                mkFetched (Some (Client.Body res)) (ContentLength res) None
                  false
          end
      end
  end.

End Fetch.

(** ** Reading the state machine *)

(** The transitions that the handlers make, with what the next state
    carries; [uh] is the agent on which the handler is called. *)
Inductive Successor (uh : UpdateHub) : State -> State -> Prop :=
| IdleWaits : Successor uh IdleState IdleState
| IdleChecks : Successor uh IdleState UpdateCheckState
| IdlePolls :
    Successor uh IdleState (PollState (PollingInterval (settings uh)) 0)
| PollWaits i t : Successor uh (PollState i t) (PollState i t)
| PollChecks i t : Successor uh (PollState i t) UpdateCheckState
| CheckDownloads um : Successor uh UpdateCheckState (DownloadingState um)
| CheckPollsAgain extraPoll :
    0 < extraPoll -> Successor uh UpdateCheckState (PollState extraPoll 0)
| CheckIdles : Successor uh UpdateCheckState IdleState
| DownloadInstalls um :
    Successor uh (DownloadingState um) (InstallingState um)
| DownloadFails um e :
    Successor uh (DownloadingState um)
      (ErrorState (NewTransientError e) (Some um))
| InstallSkipped um :
    PackageUID um = lastInstalledPackageUID uh ->
    Successor uh (InstallingState um) (WaitingForRebootState um)
| InstallDone um :
    PackageUID um <> lastInstalledPackageUID uh ->
    Successor uh (InstallingState um) (InstalledState um)
| InstallFails um e :
    PackageUID um <> lastInstalledPackageUID uh ->
    Successor uh (InstallingState um)
      (ErrorState (NewTransientError e) (Some um))
| RebootIdles um : Successor uh (WaitingForRebootState um) IdleState
| InstalledIdles um : Successor uh (InstalledState um) IdleState
| ErrorExits cause d :
    IsFatal cause = true -> Successor uh (ErrorState cause d) (ExitState 1)
| ErrorIdles cause d :
    IsFatal cause = false -> Successor uh (ErrorState cause d) IdleState.

(** The same transitions on the ids of the states. *)
Definition edge (a b : UpdateHubState) : bool :=
  match a, b with
  | UpdateHubStateIdle, UpdateHubStateIdle
  | UpdateHubStateIdle, UpdateHubStateUpdateCheck
  | UpdateHubStateIdle, UpdateHubStatePoll
  | UpdateHubStatePoll, UpdateHubStatePoll
  | UpdateHubStatePoll, UpdateHubStateUpdateCheck
  | UpdateHubStateUpdateCheck, UpdateHubStateDownloading
  | UpdateHubStateUpdateCheck, UpdateHubStatePoll
  | UpdateHubStateUpdateCheck, UpdateHubStateIdle
  | UpdateHubStateDownloading, UpdateHubStateInstalling
  | UpdateHubStateDownloading, UpdateHubStateError
  | UpdateHubStateInstalling, UpdateHubStateWaitingForReboot
  | UpdateHubStateInstalling, UpdateHubStateInstalled
  | UpdateHubStateInstalling, UpdateHubStateError
  | UpdateHubStateWaitingForReboot, UpdateHubStateIdle
  | UpdateHubStateInstalled, UpdateHubStateIdle
  | UpdateHubStateError, UpdateHubStateExit
  | UpdateHubStateError, UpdateHubStateIdle => true
  | _, _ => false
  end.

(** Every state of the list is followed by one that [edge] allows. *)
Fixpoint linked (path : list State) : Prop :=
  match path with
  | a :: (b :: _) as rest => edge (ID a) (ID b) = true /\ linked rest
  | _ => True
  end.

(** The field [updateMetadata] of the states that have one. *)
Definition updateMetadata_of (s : State) : option UpdateMetadata :=
  match s with
  | DownloadingState um | InstallingState um | WaitingForRebootState um
  | InstalledState um => Some um
  | ErrorState _ um => um
  | _ => None
  end.

(** An error state whose cause is fatal. *)
Definition fatal_error (s : State) : Prop :=
  match s with
  | ErrorState cause _ => IsFatal cause = true
  | _ => False
  end.

(** The settings that no handler writes. *)
Definition configuration (uh : UpdateHub)
    : bool * Duration * Time * string * Duration :=
  (PollingEnabled (settings uh), PollingInterval (settings uh),
   FirstPoll (settings uh), DownloadDir (settings uh), TimeStep uh).

(** The objects set up, and the objects cleaned up, in a history. *)
Fixpoint setups (evs : list Event) : list Object :=
  match evs with
  | [] => []
  | EvSetup o _ :: evs => o :: setups evs
  | _ :: evs => setups evs
  end.

Fixpoint cleanups (evs : list Event) : list Object :=
  match evs with
  | [] => []
  | EvCleanup o _ :: evs => o :: cleanups evs
  | _ :: evs => cleanups evs
  end.

(** The error that a call of the install pipeline returned. *)
Definition error_of (e : Event) : error :=
  match e with
  | EvFetchUpdate _ err | EvCheckSupportedHardware _ err | EvActive _ err
  | EvSetActive _ err | EvCheckSha256sum _ err | EvSetup _ err
  | EvProceed _ _ err | EvInstall _ err | EvCleanup _ err => err
  | _ => None
  end.

(** A call to the active/inactive backend. *)
Definition slot_event (e : Event) : Prop :=
  match e with
  | EvActive _ _ | EvSetActive _ _ => True
  | _ => False
  end.

(** [(activeIndex - 1) * -1] *)
Definition inactive_of (activeIndex : Z) : Z :=
  wrap64 (wrap64 (activeIndex - 1) * -1).

(** What must come right before a call of the install pipeline, [prev]
    being the call before it: the sha256 check that passed before [Setup],
    [Setup] before the [InstallIfDifferent] check, the check that said
    "install" before [Install], the check that said "skip" or [Install]
    before [Cleanup], a [Cleanup] without error before [SetActive], and the
    hardware check that passed before [Active]. *)
Definition follows (prev : option Event) (e : Event) : Prop :=
  match e with
  | EvSetup o _ => prev = Some (EvCheckSha256sum o None)
  | EvProceed o _ _ => prev = Some (EvSetup o None)
  | EvInstall o _ => exists err, prev = Some (EvProceed o true err)
  | EvCleanup o _ =>
      (exists err, prev = Some (EvProceed o false err)) \/
      (exists err, prev = Some (EvInstall o err))
  | EvSetActive _ _ => exists o, prev = Some (EvCleanup o None)
  | EvActive _ _ => exists um, prev = Some (EvCheckSupportedHardware um None)
  | _ => True
  end.

Fixpoint ordered (prev : option Event) (evs : list Event) : Prop :=
  match evs with
  | [] => True
  | e :: evs => follows prev e /\ ordered (Some e) evs
  end.

(** Collaborators as [collaborators], with the active slot and the result
    of the [InstallIfDifferent] check given. *)
Definition slot_collaborators (active : Z) (proceed : bool) : Collaborators :=
  {| time_Now := fun _ => 0;
     Controller_CheckUpdate := fun _ _ => (None, 0);
     Controller_FetchUpdate := fun _ _ => None;
     CheckSupportedHardware := fun _ _ => None;
     CheckDownloadedObjectSha256sum := fun _ _ _ => None;
     InstallIfDifferent_Proceed := fun _ _ => (proceed, None);
     handler_Setup := fun _ _ => None;
     handler_Install := fun _ _ _ => None;
     handler_Cleanup := fun _ _ => None;
     activeInactive_Active := fun _ => (active, None);
     activeInactive_SetActive := fun _ _ => None;
     poll_signals := fun _ => [];
     daemon_stop := fun _ => false |}.

(** The agent after the install of [single_um] by [all_good]. *)
Definition installed_single : UpdateHub :=
  mkUpdateHub (settings0 0) "uid-1" Second
    [EvCheckSupportedHardware single_um None;
     EvCheckSha256sum objA None; EvSetup objA None;
     EvProceed objA true None; EvInstall objA None;
     EvCleanup objA None].

(** The agent after the install of [two_slot_um] with slot 1 active. *)
Definition installed_two_slot : UpdateHub :=
  mkUpdateHub (settings0 0) "uid-2" Second
    [EvCheckSupportedHardware two_slot_um None; EvActive 1 None;
     EvCheckSha256sum objA None; EvSetup objA None;
     EvProceed objA false None; EvCleanup objA None;
     EvSetActive 0 None].

(** Collaborators for a run without update: ten ticks reach the poll, the
    probe finds nothing, and the daemon is stopped once ten calls have been
    made. *)
Definition no_update_run : Collaborators :=
  {| time_Now := fun _ => 0;
     Controller_CheckUpdate := fun _ _ => (None, 0);
     Controller_FetchUpdate := fun _ _ => None;
     CheckSupportedHardware := fun _ _ => None;
     CheckDownloadedObjectSha256sum := fun _ _ _ => None;
     InstallIfDifferent_Proceed := fun _ _ => (true, None);
     handler_Setup := fun _ _ => None;
     handler_Install := fun _ _ _ => None;
     handler_Cleanup := fun _ _ => None;
     activeInactive_Active := fun _ => (0, None);
     activeInactive_SetActive := fun _ _ => None;
     poll_signals := fun _ => repeat Tick 10;
     daemon_stop := fun history => (10 <=? length history)%nat |}.

(** The agent after that run, started in Idle. *)
Definition after_no_update : UpdateHub :=
  mkUpdateHub (mkSettings true (10 * Second) 0 0 0 1 "/tmp/download") ""
    Second
    [EvReport IdleState; EvHandle IdleState; EvNow 0;
     EvReport (PollState (10 * Second) 0);
     EvHandle (PollState (10 * Second) 0); EvPoll (repeat Tick 10);
     EvReport UpdateCheckState; EvHandle UpdateCheckState;
     EvCheckUpdate 0 None 0; EvNow 0].

(** Collaborators for an extra poll that comes early: it is 95 s, the
    probe finds nothing and asks for an extra poll in 3 s. *)
Definition early_extra_poll : Collaborators :=
  collaborators (fun _ => 95 * Second) (None, 3 * Second)
    (fun _ => None) (fun _ => None).

(** The agent after the update check with [early_extra_poll]. *)
Definition after_early_extra_poll : UpdateHub :=
  mkUpdateHub
    (mkSettings true (10 * Second) (3 * Second) 0 (95 * Second) 0
       "/tmp/download")
    "" Second
    [EvCheckUpdate 3 None (3 * Second); EvNow (95 * Second);
     EvNow (95 * Second)].

(** The agent after the update check of [agent 3] with [all_good]. *)
Definition after_idle_check : UpdateHub :=
  mkUpdateHub (mkSettings true (10 * Second) 0 0 0 1 "/tmp/download") ""
    Second [EvCheckUpdate 3 None 0; EvNow 0].

(** A file system with one file, and the join of two paths with a slash. *)
Definition one_file (name hash : string) (path : string) : string * error :=
  if String.eqb path name then (hash, None) else ("", Some "no such file").

Definition join_slash (dir file : string) : string :=
  (dir ++ "/" ++ file)%string.

(** Every sha256 check recorded in [evs], a history that continues
    [history], carries the answer of the checker of [c] at that point. *)
Fixpoint sha_checks_answered (c : Collaborators) (dir : string)
    (history evs : list Event) : Prop :=
  match evs with
  | [] => True
  | e :: evs =>
      match e with
      | EvCheckSha256sum o err =>
          err = CheckDownloadedObjectSha256sum c history dir (Sha256sum o)
      | _ => True
      end /\ sha_checks_answered c dir (history ++ [e]) evs
  end.

(** Collaborators as [all_good], but with [Sha256CheckerImpl] as checker,
    on a file system with the one file [/tmp/download/aaaa], which hashes
    to [aaaa]. *)
Definition checked_download : Collaborators :=
  {| time_Now := fun _ => 0;
     Controller_CheckUpdate := fun _ _ => (None, 0);
     Controller_FetchUpdate := fun _ _ => None;
     CheckSupportedHardware := fun _ _ => None;
     CheckDownloadedObjectSha256sum :=
       fun _ dir sum =>
         Sha256CheckerImpl_CheckDownloadedObjectSha256sum
           (one_file "/tmp/download/aaaa" "aaaa") join_slash dir sum;
     InstallIfDifferent_Proceed := fun _ _ => (true, None);
     handler_Setup := fun _ _ => None;
     handler_Install := fun _ _ _ => None;
     handler_Cleanup := fun _ _ => None;
     activeInactive_Active := fun _ => (0, None);
     activeInactive_SetActive := fun _ _ => None;
     poll_signals := fun _ => [];
     daemon_stop := fun _ => false |}.

(** [UpdateHubState] is an [int]: the values that [iota] gives to the
    constants, [statusNames] as the map it is, and [StateToString] on every
    integer; a key that the map does not hold gives the empty string. *)
Definition UpdateHubState_value (status : UpdateHubState) : Z :=
  match status with
  | UpdateHubDummyState => 0
  | UpdateHubStateIdle => 1
  | UpdateHubStatePoll => 2
  | UpdateHubStateUpdateCheck => 3
  | UpdateHubStateDownloading => 4
  | UpdateHubStateInstalling => 5
  | UpdateHubStateInstalled => 6
  | UpdateHubStateWaitingForReboot => 7
  | UpdateHubStateExit => 8
  | UpdateHubStateError => 9
  end.

Definition statusNames : gmap Z string :=
  <[1 := "idle"]>
    (<[2 := "poll"]>
       (<[3 := "update-check"]>
          (<[4 := "downloading"]>
             (<[5 := "installing"]>
                (<[6 := "installed"]>
                   (<[7 := "waiting-for-reboot"]>
                      (<[8 := "exit"]> (<[9 := "error"]> ∅)))))))).

Definition StateToString_int (status : Z) : string :=
  match statusNames !! status with
  | Some name => name
  | None => ""
  end.

(** ** Histories grow *)

Lemma app_nil_end' {A} (l : list A) : l = l ++ [].
Proof. now rewrite app_nil_r. Qed.

(** Where an element that is not in the first part of a list lies. *)
Lemma split_past {A} (a b l1 l2 : list A) (x : A) :
  l1 ++ x :: l2 = a ++ b -> ~ In x a ->
  exists p, l1 = a ++ p /\ b = p ++ x :: l2.
Proof.
  revert l1. induction a as [|y a IH]; intros l1 H Hx.
  - exists l1. auto.
  - destruct l1 as [|z l1]; simpl in H; inversion H; subst.
    + exfalso. apply Hx. now left.
    + destruct (IH l1) as [p [-> ->]]; auto.
      * intro. apply Hx. now right.
      * exists p. auto.
Qed.

Ltac loop_cases :=
  repeat match goal with
         | H : context [match ?x with _ => _ end] |- _ =>
             let E := fresh "E" in destruct x eqn:E; simpl in H
         | H : (_, _) = (_, _) |- _ => inversion H; subst; clear H
         end.

Lemma install_objects_trace c um i objects :
  forall uh st uh',
    install_objects c um i objects uh = (st, uh') ->
    exists evs, trace uh' = trace uh ++ evs /\ LoopTrace evs.
Proof.
  induction objects as [|o rest IH]; intros uh st uh' H; simpl in H.
  - inversion H; subst. exists []. split; [apply app_nil_end' | constructor].
  - loop_cases;
      try (apply IH in H; destruct H as [evs [Ht Hl]]; rewrite Ht);
      simpl; rewrite <- ?app_assoc; simpl;
      eexists; (split; [reflexivity|]);
      first [ constructor
            | apply (LoopObject o [_; _] _ [_] _)
            | apply (LoopObject o [_] _ [_] _)
            | apply (LoopObject o [_; _] _ [] _)
            | apply (LoopObject o [_] _ [] _) ];
      simpl; eauto using LoopTrace;
      repeat (constructor; simpl; try reflexivity).
Qed.

(** In a run of the object loop, a [Setup] that succeeded is followed by
    the install steps of its object and then by its [Cleanup]; a [Setup]
    that failed is the last call of the run. *)
Lemma LoopTrace_setup evs :
  LoopTrace evs ->
  forall pre o serr post,
    evs = pre ++ EvSetup o serr :: post ->
    match serr with
    | None => exists mid err rest,
        post = mid ++ EvCleanup o err :: rest /\ Forall (install_step o) mid
    | Some _ => post = []
    end.
Proof.
  induction 1 as [|o e|o e|o mid err switch rest Hmid Hsw Hrest IH];
    intros pre o' serr post Heq.
  - destruct pre; discriminate.
  - destruct pre as [|? [|? ?]]; discriminate.
  - destruct pre as [|? [|? [|? ?]]]; try discriminate.
    inversion Heq; subst. reflexivity.
  - destruct pre as [|? [|? pre]]; try discriminate.
    + inversion Heq; subst. exists mid, err, (switch ++ rest). auto.
    + inversion Heq as [[H1 H2 H3]]; clear Heq.
      change (mid ++ EvCleanup o err :: switch ++ rest)
        with (mid ++ [EvCleanup o err] ++ switch ++ rest) in H3.
      rewrite 2 app_assoc in H3. symmetry in H3.
      apply split_past in H3.
      * destruct H3 as [p [_ Hp]]. eapply IH. exact Hp.
      * rewrite !in_app_iff. intros [[Hin | [Hin | []]] | Hin];
          try discriminate.
        -- rewrite List.Forall_forall in Hmid. apply (Hmid _ Hin).
        -- destruct Hsw as [-> | [i [e' ->]]]; simpl in Hin;
             [contradiction | destruct Hin as [Hin | []]; discriminate].
Qed.

Lemma GetIndexOfObjectToBeInstalled_trace c um uh i err uh1 :
  GetIndexOfObjectToBeInstalled c um uh = ((i, err), uh1) ->
  exists pre, trace uh1 = trace uh ++ pre /\ Forall prologue_event pre.
Proof.
  unfold GetIndexOfObjectToBeInstalled. intros H.
  repeat match type of H with
         | context [match ?x with _ => _ end] =>
             let E := fresh "E" in destruct x eqn:E; simpl in H
         end;
    inversion H; subst; clear H; simpl;
    first [ exists []; split; [apply app_nil_end' | constructor]
          | eexists [_]; split; [reflexivity | repeat constructor] ].
Qed.

Lemma InstallingState_Handle_trace c um uh st uh' :
  InstallingState_Handle c um uh = Returned (st, uh') ->
  exists pre loop,
    trace uh' = trace uh ++ pre ++ loop /\
    Forall prologue_event pre /\ LoopTrace loop.
Proof.
  unfold InstallingState_Handle. intros H.
  destruct (PackageUID um =? lastInstalledPackageUID uh)%string.
  { inversion H; subst. exists [], []. simpl.
    split; [apply app_nil_end' | split; constructor]. }
  destruct (CheckSupportedHardware _ _ _) as [e|] eqn:Ehw.
  { inversion H; subst. eexists [_], []. simpl.
    split; [reflexivity | split; repeat constructor]. }
  destruct (GetIndexOfObjectToBeInstalled _ _ _) as [[i err] uh1] eqn:Eidx.
  apply GetIndexOfObjectToBeInstalled_trace in Eidx.
  destruct Eidx as [pre [Ht Hpre]]. simpl in Ht.
  destruct err as [e|].
  { inversion H; subst. exists (EvCheckSupportedHardware um None :: pre), [].
    rewrite Ht, <- app_assoc, app_nil_r.
    split; [reflexivity | split; repeat constructor; assumption]. }
  destruct (index_Objects um i) as [objects|]; [|discriminate].
  inversion H as [Hrun]; clear H.
  apply install_objects_trace in Hrun. destruct Hrun as [evs [Hevs Hloop]].
  exists (EvCheckSupportedHardware um None :: pre), evs.
  rewrite Hevs, Ht, <- !app_assoc.
  split; [reflexivity | split; [repeat constructor; assumption | assumption]].
Qed.

(** ** The install pipeline *)

(** C1, as amended.  In a run of the Installing handler, every call of
    Setup that succeeds is followed, before the handler returns, by the
    Cleanup of the same object, with nothing in between but the
    InstallIfDifferent check and the Install of that object, whatever their
    results; a call of Setup that fails is the last call the handler
    makes. *)
Theorem cleanup_after_successful_setup c um uh st uh' evs :
  InstallingState_Handle c um uh = Returned (st, uh') ->
  trace uh' = trace uh ++ evs ->
  forall pre o serr post,
    evs = pre ++ EvSetup o serr :: post ->
    match serr with
    | None => exists mid err rest,
        post = mid ++ EvCleanup o err :: rest /\ Forall (install_step o) mid
    | Some _ => post = []
    end.
Proof.
  intros Hrun Ht pre o serr post Hevs.
  apply InstallingState_Handle_trace in Hrun.
  destruct Hrun as [pro [loop [Ht' [Hpro Hloop]]]].
  rewrite Ht in Ht'. apply app_inv_head in Ht'. subst evs.
  symmetry in Hevs. apply split_past in Hevs.
  - destruct Hevs as [p [_ Hp]]. exact (LoopTrace_setup _ Hloop _ _ _ _ Hp).
  - intro Hin. rewrite List.Forall_forall in Hpro. exact (Hpro _ Hin).
Qed.

Lemma cleanup_after_successful_setup_witness :
  exists mid err rest,
    [EvProceed objA true None; EvInstall objA None; EvCleanup objA None]
    = mid ++ EvCleanup objA err :: rest /\ Forall (install_step objA) mid.
Proof.
  exact (cleanup_after_successful_setup all_good single_um (agent 0 "")
           (InstalledState single_um)
           (mkUpdateHub (settings0 0) "uid-1" Second
              [EvCheckSupportedHardware single_um None;
               EvCheckSha256sum objA None; EvSetup objA None;
               EvProceed objA true None; EvInstall objA None;
               EvCleanup objA None])
           _ eq_refl eq_refl
           [EvCheckSupportedHardware single_um None;
            EvCheckSha256sum objA None]
           objA None _ eq_refl).
Defined.

(** C1, as stated, fails: when Setup fails the handler returns at once and
    Cleanup is not called. *)
Lemma cleanup_skipped_when_setup_fails : ~ cleanup_after_every_setup.
Proof.
  intro H.
  assert (Hin : exists err',
             In (EvCleanup objA err')
                [EvCheckSupportedHardware single_um None;
                 EvCheckSha256sum objA None;
                 EvSetup objA (Some "setup failed")]).
  { apply (H setup_fails single_um (agent 0 "") _ _ _ eq_refl eq_refl
             objA (Some "setup failed")).
    simpl. auto. }
  destruct Hin as [err Hin]. simpl in Hin.
  repeat destruct Hin as [Hin | Hin]; try discriminate. exact Hin.
Qed.

(** C2.  With two object groups and two objects in the inactive group,
    SetActive is called right after the first object, before the second one
    is even checked; here the second Install then fails and the handler
    returns an error, the active slot already switched. *)
Theorem set_active_between_objects :
  InstallingState_Handle last_install_fails two_slot_um (agent 0 "")
  = Returned
      (ErrorState (NewTransientError "write failed") (Some two_slot_um),
       mkUpdateHub (settings0 0) "uid-2" Second
         [EvCheckSupportedHardware two_slot_um None; EvActive 0 None;
          EvCheckSha256sum objB None; EvSetup objB None;
          EvProceed objB true None; EvInstall objB None;
          EvCleanup objB None;
          EvSetActive 1 None;
          EvCheckSha256sum objC None; EvSetup objC None;
          EvProceed objC true None; EvInstall objC (Some "write failed");
          EvCleanup objC None]).
Proof. reflexivity. Qed.

(** C3, as amended.  A descriptor whose object-group count is neither 1 nor
    2, and whose fingerprint is not the one last installed, makes the
    Installing handler return an Error state whose cause is transient, so
    the Error handler goes to Idle; when the hardware check passes the
    cause is the count error, with the count found in its text. *)
Theorem bad_count_is_transient c um uh :
  length (Objects um) <> 1%nat -> length (Objects um) <> 2%nat ->
  PackageUID um <> lastInstalledPackageUID uh ->
  exists cause uh',
    InstallingState_Handle c um uh
    = Returned (ErrorState cause (Some um), uh') /\
    IsFatal cause = false /\
    ErrorState_Handle cause uh' = (IdleState, uh') /\
    (CheckSupportedHardware c (trace uh) um = None ->
     cause
     = NewTransientError
         ("update metadata must have 1 or 2 objects. Found "
          ++ format_int (Z.of_nat (length (Objects um))))%string).
Proof.
  intros H1 H2 Huid. unfold InstallingState_Handle.
  apply String.eqb_neq in Huid. rewrite Huid. simpl.
  destruct (CheckSupportedHardware c (trace uh) um) as [e|].
  - eexists _, _. repeat split. discriminate.
  - unfold GetIndexOfObjectToBeInstalled.
    replace ((Z.of_nat (length (Objects um)) <? 1)
             || (2 <? Z.of_nat (length (Objects um)))) with true
      by (symmetry; apply orb_true_iff; rewrite !Z.ltb_lt; lia).
    eexists _, _. repeat split.
Qed.

Lemma bad_count_is_transient_witness :
  exists cause uh',
    InstallingState_Handle all_good no_group_um (agent 0 "")
    = Returned (ErrorState cause (Some no_group_um), uh') /\
    IsFatal cause = false /\
    ErrorState_Handle cause uh' = (IdleState, uh') /\
    (CheckSupportedHardware all_good (trace (agent 0 "")) no_group_um = None
     -> cause
        = NewTransientError
            ("update metadata must have 1 or 2 objects. Found "
             ++ format_int (Z.of_nat (length (Objects no_group_um))))%string).
Proof.
  apply (bad_count_is_transient all_good no_group_um (agent 0 ""));
    simpl; discriminate.
Defined.

(** C3, as stated, fails: with no object group at all the error is
    transient and the Error handler goes to Idle. *)
Lemma bad_count_not_fatal : ~ bad_count_is_fatal.
Proof.
  intro H.
  destruct (H all_good no_group_um (agent 0 "")
              (NewTransientError
                 "update metadata must have 1 or 2 objects. Found 0")
              (Some no_group_um)
              (mkUpdateHub (settings0 0) "uid-0" Second
                 [EvCheckSupportedHardware no_group_um None]))
    as [Hfatal _]; simpl; try discriminate.
  reflexivity.
Qed.

(** C4.  When the fingerprint of the descriptor is the one last installed,
    the Installing handler returns WaitingForReboot with the same
    descriptor and leaves the agent as it was: no call is made (the history
    is unchanged) and nothing is written. *)
Theorem same_fingerprint_skips_install c fuel um uh :
  PackageUID um = lastInstalledPackageUID uh ->
  Handle c fuel (InstallingState um) uh
  = Returned (WaitingForRebootState um, uh).
Proof.
  intros Huid. simpl. unfold InstallingState_Handle.
  apply String.eqb_eq in Huid. now rewrite Huid.
Qed.

Lemma same_fingerprint_skips_install_witness :
  Handle all_good 0 (InstallingState single_um) (agent 0 "uid-1")
  = Returned (WaitingForRebootState single_um, agent 0 "uid-1").
Proof.
  apply (same_fingerprint_skips_install all_good 0 single_um
           (agent 0 "uid-1")).
  reflexivity.
Defined.

(** ** The update check *)

Lemma wrap64_id z : int64 z -> wrap64 z = z.
Proof.
  unfold int64, wrap64, MinInt64, MaxInt64. intros H.
  rewrite Z.mod_small; lia.
Qed.

Ltac sentinel :=
  repeat match goal with
         | E : negb _ = true |- _ => apply negb_true_iff in E
         | E : negb _ = false |- _ => apply negb_false_iff in E
         | E : (_ =? _) = true |- _ => apply Z.eqb_eq in E
         | E : (_ =? _) = false |- _ => apply Z.eqb_neq in E
         end;
  try congruence.

Ltac probe_cases H :=
  cbv zeta; unfold UpdateCheckState_Handle, Now in H;
  destruct (Controller_CheckUpdate _ _ _) as [probed extraPoll] eqn:Eprobe;
  simpl in H;
  repeat match type of H with
         | context [match ?x with _ => _ end] =>
             let E := fresh "E" in destruct x eqn:E; simpl in H
         end;
  try discriminate; inversion H; subst; clear H; simpl.

(** C5, as amended.  When the UpdateCheck handler returns Idle, the retries
    are those at entry plus 1 (wrapping around as a Go int does, so plus 1
    exactly below the largest int) if the probe answered with the extra
    poll -1, its sign of failure; with any other answer the retries were
    first reset and are 1. *)
Theorem idle_retries c fuel uh uh' :
  UpdateCheckState_Handle c fuel uh = Returned (IdleState, uh') ->
  let retries := PollingRetries (settings uh) in
  let extraPoll := snd (Controller_CheckUpdate c (trace uh) retries) in
  (extraPoll = -1 ->
   PollingRetries (settings uh') = wrap64 (retries + 1)) /\
  (extraPoll = -1 -> int64 (retries + 1) ->
   PollingRetries (settings uh') = retries + 1) /\
  (extraPoll <> -1 -> PollingRetries (settings uh') = 1).
Proof.
  intros H; probe_cases H;
    repeat split; intros; subst;
    try rewrite wrap64_id by assumption;
    try reflexivity; try discriminate; sentinel.
Qed.

Lemma idle_retries_witness :
  PollingRetries
    (settings
       (mkUpdateHub
          (mkSettings true (10 * Second) 0 0 0 1 "/tmp/download") ""
          Second [EvCheckUpdate 3 None 0; EvNow 0])) = 1.
Proof.
  apply (idle_retries all_good 0 (agent 3 "")
           (mkUpdateHub
              (mkSettings true (10 * Second) 0 0 0 1 "/tmp/download") ""
              Second [EvCheckUpdate 3 None 0; EvNow 0])
           eq_refl).
  discriminate.
Defined.

(** C5, as stated, fails: entered with 3 retries, a probe that finds no
    update and asks for no extra poll leaves 1 retry, not 4. *)
Lemma idle_after_success_resets : ~ idle_adds_one_retry.
Proof.
  intro H.
  specialize (H all_good 0%nat (agent 3 "")
                (mkUpdateHub
                   (mkSettings true (10 * Second) 0 0 0 1 "/tmp/download")
                   "" Second [EvCheckUpdate 3 None 0; EvNow 0])
                eq_refl).
  discriminate H.
Qed.

(** C6, as amended.  When the UpdateCheck handler returns Downloading, the
    probe gave that descriptor, the extra polling interval is zero, the
    last poll is the time read after the probe returned, and the retries
    are 0 unless the probe also answered with the extra poll -1, in which
    case they are those at entry. *)
Theorem downloading_settings c fuel uh um uh' :
  UpdateCheckState_Handle c fuel uh = Returned (DownloadingState um, uh') ->
  let retries := PollingRetries (settings uh) in
  let probe := Controller_CheckUpdate c (trace uh) retries in
  fst probe = Some um /\
  ExtraPollingInterval (settings uh') = 0 /\
  LastPoll (settings uh')
  = time_Now c (trace uh ++ [EvCheckUpdate retries (Some um) (snd probe)]) /\
  (snd probe <> -1 -> PollingRetries (settings uh') = 0) /\
  (snd probe = -1 -> PollingRetries (settings uh') = retries).
Proof.
  intros H; probe_cases H;
    repeat split; intros; subst;
    try reflexivity; try discriminate; sentinel.
Qed.

Lemma downloading_settings_witness :
  LastPoll
    (settings
       (mkUpdateHub
          (mkSettings true (10 * Second) 0 0 105 3 "/tmp/download") ""
          Second [EvCheckUpdate 3 (Some single_um) (-1); EvNow 105]))
  = time_Now update_with_sentinel
      (trace (agent 3 "") ++ [EvCheckUpdate 3 (Some single_um) (-1)]).
Proof.
  apply (downloading_settings update_with_sentinel 0 (agent 3 "") single_um
           (mkUpdateHub
              (mkSettings true (10 * Second) 0 0 105 3 "/tmp/download") ""
              Second [EvCheckUpdate 3 (Some single_um) (-1); EvNow 105])
           eq_refl).
Defined.

(** C6, as stated, fails twice: a probe that gives a descriptor together
    with the extra poll -1 leaves the 3 retries of entry, and the last poll
    is the time read after the probe (105), not the time at entry (100). *)
Lemma downloading_keeps_retries_and_reads_clock_late :
  ~ downloading_resets_retries /\ ~ downloading_last_poll_at_entry.
Proof.
  split; intro H;
    specialize (H update_with_sentinel 0%nat (agent 3 "") single_um
                  (mkUpdateHub
                     (mkSettings true (10 * Second) 0 0 105 3
                        "/tmp/download") ""
                     Second
                     [EvCheckUpdate 3 (Some single_um) (-1); EvNow 105])
                  eq_refl);
    discriminate H.
Qed.

(** ** The loop of the extra poll *)

(** With a positive interval the loop ends within [now - nextPoll]
    iterations, at a time that is not before [now]. *)
Lemma advance_nextPoll_enough interval now :
  0 < interval ->
  forall fuel nextPoll,
    now - nextPoll <= Z.of_nat fuel ->
    exists t,
      advance_nextPoll fuel interval now nextPoll = Some t /\ now <= t.
Proof.
  intros Hpos. unfold Time in *.
  induction fuel as [|fuel IH]; intros nextPoll Hfuel; simpl;
    unfold Time_Before; destruct (Z.ltb_spec nextPoll now) as [Hlt | Hge];
    try lia; try (exists nextPoll; split; [reflexivity | lia]).
  apply IH. unfold Time_Add. lia.
Qed.

(** With an interval that is not positive, the loop never ends once it is
    entered. *)
Lemma advance_nextPoll_stuck interval now :
  interval <= 0 ->
  forall fuel nextPoll,
    nextPoll < now -> advance_nextPoll fuel interval now nextPoll = None.
Proof.
  intros Hneg. unfold Time in *.
  induction fuel as [|fuel IH]; intros nextPoll Hlt; simpl;
    unfold Time_Before; destruct (Z.ltb_spec nextPoll now) as [_ | Hge];
    try lia; try reflexivity.
  apply IH. unfold Time_Add. lia.
Qed.

Lemma time_Unix_floor t : time_Unix (Time_Unix t) <= t.
Proof.
  unfold time_Unix, Time_Unix, Second, Time in *.
  pose proof (Z.mul_div_le t 1000000000). lia.
Qed.

(** C10.  The loop that adds the polling interval to the projected next
    poll until it is not before now: with a positive interval it ends,
    given enough fuel, for every now and every start, and so does the
    UpdateCheck handler for every answer of its collaborators; with an
    interval that is not positive it never ends once entered, and the
    handler never returns when the probe gives no descriptor and a
    positive extra poll while the first poll lies in the past. *)
Theorem extra_poll_loop_terminates_iff_positive_interval c uh now nextPoll :
  let interval := PollingInterval (settings uh) in
  (0 < interval ->
   (exists enough, forall fuel, (enough <= fuel)%nat ->
      exists t, advance_nextPoll fuel interval now nextPoll = Some t
                /\ now <= t) /\
   (exists enough, forall fuel, (enough <= fuel)%nat ->
      exists next, UpdateCheckState_Handle c fuel uh = Returned next)) /\
  (interval <= 0 ->
   (nextPoll < now ->
    forall fuel, advance_nextPoll fuel interval now nextPoll = None) /\
   (forall extraPoll,
      Controller_CheckUpdate c (trace uh) (PollingRetries (settings uh))
      = (None, extraPoll) ->
      0 < extraPoll ->
      (forall history, FirstPoll (settings uh) < time_Now c history) ->
      forall fuel, UpdateCheckState_Handle c fuel uh = OutOfFuel)).
Proof.
  cbv zeta. split.
  - intros Hpos. split.
    + exists (Z.to_nat (now - nextPoll)). intros fuel Hfuel.
      apply advance_nextPoll_enough; [assumption | lia].
    + unfold UpdateCheckState_Handle, Now.
      destruct (Controller_CheckUpdate _ _ _) as [[um|] extraPoll]; simpl.
      { exists 0%nat. intros. eauto. }
      destruct (0 <? extraPoll); [| exists 0%nat; intros; eauto].
      destruct (negb (extraPoll =? -1)); simpl.
      all: match goal with
      | |- context [advance_nextPoll _ ?i ?n ?p] =>
          exists (Z.to_nat (n - p)); intros fuel Hfuel;
          destruct (advance_nextPoll_enough i n Hpos fuel p) as [t [-> _]];
          [lia |]
      end.
      all: destruct (Time_Before _ _); eauto.
  - intros Hneg. split.
    + intros Hlt fuel. now apply advance_nextPoll_stuck.
    + intros extraPoll Hprobe Hextra Hpast fuel.
      unfold UpdateCheckState_Handle, Now. rewrite Hprobe. simpl.
      apply Z.ltb_lt in Hextra. rewrite Hextra.
      rewrite advance_nextPoll_stuck; [reflexivity | | ].
      * destruct (negb (extraPoll =? -1)); exact Hneg.
      * eapply Z.le_lt_trans; [apply time_Unix_floor |].
        destruct (negb (extraPoll =? -1)); apply Hpast.
Qed.

Lemma extra_poll_loop_witness :
  (exists enough, forall fuel, (enough <= fuel)%nat ->
     exists next,
       UpdateCheckState_Handle (extra_poll (5 * Second)) fuel (agent 0 "")
       = Returned next) /\
  (forall fuel,
     UpdateCheckState_Handle (extra_poll (5 * Second)) fuel
       (with_PollingInterval 0 (agent 0 "")) = OutOfFuel).
Proof.
  split.
  - exact (proj2 (proj1 (extra_poll_loop_terminates_iff_positive_interval
                           (extra_poll (5 * Second)) (agent 0 "") 0 0)
                    eq_refl)).
  - apply (proj2 (proj2 (extra_poll_loop_terminates_iff_positive_interval
                           (extra_poll (5 * Second))
                           (with_PollingInterval 0 (agent 0 "")) 0 0)
                    ltac:(discriminate))
             (5 * Second)).
    + reflexivity.
    + reflexivity.
    + intros history. reflexivity.
Defined.

(** ** The ticks of the poll *)

Lemma polling_nil timeStep interval ticks :
  0 < timeStep -> polling timeStep interval [] ticks = Waiting ticks.
Proof.
  intros H. simpl. destruct (Z.leb_spec timeStep 0); [lia | reflexivity].
Qed.

Lemma polling_cancel timeStep interval rest ticks :
  polling timeStep interval (CancelSignal :: rest) ticks
  = polling timeStep interval rest ticks.
Proof.
  simpl. destruct (timeStep <=? 0) eqn:E; [| reflexivity].
  destruct rest; simpl; now rewrite E.
Qed.

Lemma polling_tick timeStep interval rest ticks :
  0 < timeStep ->
  polling timeStep interval (Tick :: rest) ticks
  = let ticks := wrap64 (ticks + 1) in
    if 0 <? ticks then
      let every := wrap64 (Z.quot interval timeStep) in
      if every =? 0 then DivideByZero
      else if Z.rem ticks every =? 0 then Fired ticks
      else polling timeStep interval rest ticks
    else polling timeStep interval rest ticks.
Proof.
  intros H. simpl. destruct (Z.leb_spec timeStep 0); [lia | reflexivity].
Qed.

(** With a divisor that is not zero, neither panic is possible. *)
Lemma polling_safe timeStep interval :
  0 < timeStep -> wrap64 (Z.quot interval timeStep) <> 0 ->
  forall signals ticks,
    polling timeStep interval signals ticks <> DivideByZero /\
    polling timeStep interval signals ticks <> TickerPanic.
Proof.
  intros Hts Hevery. induction signals as [|[|] rest IH]; intros ticks.
  - rewrite polling_nil by assumption. split; discriminate.
  - rewrite polling_tick by assumption. cbv zeta.
    apply Z.eqb_neq in Hevery. rewrite Hevery.
    destruct (0 <? _); [destruct (Z.rem _ _ =? 0) |];
      try apply IH; split; discriminate.
  - rewrite polling_cancel. apply IH.
Qed.

(** The next multiple of [every] after [ticks]. *)
Lemma next_multiple_step every ticks :
  0 < every -> 0 <= ticks ->
  let next := (ticks / every + 1) * every in
  ticks < next /\
  (Z.rem (ticks + 1) every = 0 -> ticks + 1 = next) /\
  (Z.rem (ticks + 1) every <> 0 ->
   ((ticks + 1) / every + 1) * every = next).
Proof.
  intros He Ht. cbv zeta.
  rewrite Z.rem_mod_nonneg by lia.
  pose proof (Z.div_mod ticks every ltac:(lia)) as Hdm.
  pose proof (Z.mod_pos_bound ticks every He) as Hb.
  pose proof (Z.div_mod (ticks + 1) every ltac:(lia)) as Hdm1.
  pose proof (Z.mod_pos_bound (ticks + 1) every He) as Hb1.
  assert (Hq : (ticks + 1) mod every = 0 -> (ticks + 1) / every
                                           = ticks / every + 1) by nia.
  assert (Hq' : (ticks + 1) mod every <> 0 -> (ticks + 1) / every
                                             = ticks / every) by nia.
  repeat split.
  - nia.
  - intros H0. rewrite H0, Hq in Hdm1 by assumption. lia.
  - intros H0. rewrite Hq' by assumption. reflexivity.
Qed.

(** From [ticks], the loop waits until the ticks reach the next multiple
    of [every], and fires there. *)
Lemma polling_fires_at_next_multiple timeStep interval :
  0 < timeStep ->
  let every := Z.quot interval timeStep in
  0 < every <= MaxInt64 ->
  forall signals ticks,
    0 <= ticks ->
    let next := (ticks / every + 1) * every in
    next <= MaxInt64 ->
    polling timeStep interval signals ticks
    = if ticks + ticks_of signals <? next
      then Waiting (ticks + ticks_of signals)
      else Fired next.
Proof.
  intros Hts every Hevery. cbv zeta.
  assert (Hw : wrap64 every = every)
    by (apply wrap64_id; unfold int64, MinInt64, MaxInt64 in *; lia).
  induction signals as [|[|] rest IH]; intros ticks Hticks Hnext;
    destruct (next_multiple_step every ticks) as [Hlt [Hhit Hmiss]];
    try lia.
  - rewrite polling_nil by assumption. unfold ticks_of. simpl.
    rewrite Z.add_0_r.
    destruct (Z.ltb_spec ticks ((ticks / every + 1) * every)); [easy | lia].
  - rewrite polling_tick by assumption. cbv zeta.
    fold every. rewrite Hw.
    rewrite (wrap64_id (ticks + 1))
      by (unfold int64, MinInt64, MaxInt64 in *; lia).
    replace (ticks_of (Tick :: rest)) with (1 + ticks_of rest)
      by (unfold ticks_of; simpl length; lia).
    assert (Hrest : 0 <= ticks_of rest) by (unfold ticks_of; lia).
    destruct (Z.ltb_spec 0 (ticks + 1)); [| lia].
    destruct (Z.eqb_spec every 0); [lia |].
    destruct (Z.eqb_spec (Z.rem (ticks + 1) every) 0) as [Hz | Hnz].
    + rewrite <- (Hhit Hz).
      destruct (Z.ltb_spec (ticks + (1 + ticks_of rest)) (ticks + 1));
        [lia | reflexivity].
    + rewrite IH by (rewrite ?(Hmiss Hnz); lia).
      rewrite (Hmiss Hnz).
      replace (ticks + 1 + ticks_of rest)
        with (ticks + (1 + ticks_of rest)) by lia.
      reflexivity.
  - rewrite polling_cancel.
    replace (ticks_of (CancelSignal :: rest)) with (ticks_of rest)
      by reflexivity.
    now apply IH.
Qed.

(** With a quotient interval / time_step that is zero, the loop waits as
    long as no tick arrives and divides by zero at the first tick. *)
Lemma polling_divides_by_zero timeStep interval ticks :
  0 < timeStep -> Z.quot interval timeStep = 0 -> 0 <= ticks < MaxInt64 ->
  forall signals,
    polling timeStep interval signals ticks
    = if ticks_of signals =? 0 then Waiting ticks else DivideByZero.
Proof.
  intros Hts Hq Hticks. induction signals as [|[|] rest IH].
  - now rewrite polling_nil.
  - rewrite polling_tick by assumption. cbv zeta. rewrite Hq.
    rewrite (wrap64_id (ticks + 1))
      by (unfold int64, MinInt64, MaxInt64 in *; lia).
    destruct (Z.ltb_spec 0 (ticks + 1)); [| lia].
    unfold ticks_of. simpl filter. simpl length.
    destruct (Z.eqb_spec (Z.of_nat (S (length (filter is_tick rest)))) 0);
      [lia | reflexivity].
  - rewrite polling_cancel. exact IH.
Qed.

(** C9, as amended.  For a positive time step and a tick count that starts
    at zero or above.  Whenever interval / time_step truncates to zero, in
    particular for every interval from zero up to the time step, the first
    tick is a division by zero, and the Poll handler panics with it as soon
    as a tick arrives.  The division by zero is unreachable exactly when
    the quotient is not zero, that is when the time step is at most the
    absolute value of the interval.  With the interval at least the time
    step neither panic is reachable, whatever the signals, and from a tick
    count [ticksCount] the loop, and with it the handler, waits below the
    next multiple of interval / time_step and gives the update check
    exactly when the ticks reach that multiple. *)
Theorem poll_ticks timeStep interval ticksCount :
  int64 timeStep -> int64 interval ->
  0 < timeStep -> 0 <= ticksCount < MaxInt64 ->
  (Z.quot interval timeStep = 0 ->
   forall rest,
     polling timeStep interval (Tick :: rest) ticksCount = DivideByZero) /\
  (0 <= interval < timeStep ->
   forall rest,
     polling timeStep interval (Tick :: rest) ticksCount = DivideByZero) /\
  (Z.quot interval timeStep = 0 ->
   forall c uh,
     TimeStep uh = timeStep ->
     1 <= ticks_of (poll_signals c (trace uh)) ->
     PollState_Handle c interval ticksCount uh
     = Panicked "integer divide by zero") /\
  (((forall signals,
       polling timeStep interval signals ticksCount <> DivideByZero) <->
    Z.quot interval timeStep <> 0) /\
   (Z.quot interval timeStep <> 0 <-> timeStep <= Z.abs interval)) /\
  (timeStep <= interval ->
   let every := Z.quot interval timeStep in
   let next := (ticksCount / every + 1) * every in
   (forall signals,
      polling timeStep interval signals ticksCount <> DivideByZero /\
      polling timeStep interval signals ticksCount <> TickerPanic) /\
   (next <= MaxInt64 ->
    (forall signals,
       polling timeStep interval signals ticksCount
       = if ticksCount + ticks_of signals <? next
         then Waiting (ticksCount + ticks_of signals)
         else Fired next) /\
    (forall c uh,
       TimeStep uh = timeStep ->
       let signals := poll_signals c (trace uh) in
       PollState_Handle c interval ticksCount uh
       = Returned
           (if ticksCount + ticks_of signals <? next
            then PollState interval ticksCount
            else UpdateCheckState,
            record (EvPoll signals) uh)))).
Proof.
  intros Hts_range Hiv_range Hts Hticks.
  assert (Hzero : Z.quot interval timeStep = 0 ->
                  forall rest,
                    polling timeStep interval (Tick :: rest) ticksCount
                    = DivideByZero).
  { intros Hq rest. rewrite polling_tick by assumption. cbv zeta.
    rewrite Hq.
    rewrite (wrap64_id (ticksCount + 1))
      by (unfold int64, MinInt64, MaxInt64 in *; lia).
    destruct (Z.ltb_spec 0 (ticksCount + 1)); [reflexivity | lia]. }
  assert (Hquot : int64 (Z.quot interval timeStep)).
  { unfold int64, MinInt64, MaxInt64 in *.
    destruct (Z.le_gt_cases 0 interval) as [Hpos | Hneg].
    - rewrite Z.quot_div_nonneg by lia.
      pose proof (Z.div_pos interval timeStep Hpos Hts).
      pose proof (Z.div_le_upper_bound interval timeStep interval Hts).
      nia.
    - replace interval with (- - interval) by lia.
      rewrite Z.quot_opp_l by lia.
      rewrite Z.quot_div_nonneg by lia.
      pose proof (Z.div_pos (- interval) timeStep ltac:(lia) Hts).
      pose proof (Z.div_le_upper_bound (- interval) timeStep (- interval)
                    Hts).
      nia. }
  split; [exact Hzero |]. split; [| split; [| split]].
  - intros Hsmall. apply Hzero. apply Z.quot_small. lia.
  - intros Hq c uh Huh Hone. unfold PollState_Handle.
    change (TimeStep (record _ uh)) with (TimeStep uh). rewrite Huh.
    rewrite polling_divides_by_zero by assumption.
    destruct (Z.eqb_spec (ticks_of (poll_signals c (trace uh))) 0);
      [lia | reflexivity].
  - split.
    + split.
      * intros Hnever Hq. exact (Hnever [Tick] (Hzero Hq [])).
      * intros Hq signals. apply polling_safe; [assumption |].
        now rewrite wrap64_id.
    + rewrite Z.quot_small_iff by lia.
      rewrite (Z.abs_eq timeStep) by lia. lia.
  - intros Hge. cbv zeta.
    assert (Hevery : 0 < Z.quot interval timeStep <= MaxInt64).
    { unfold int64, MinInt64, MaxInt64 in *.
      rewrite Z.quot_div_nonneg by lia. split.
      - apply Z.div_str_pos. lia.
      - pose proof (Z.div_le_upper_bound interval timeStep interval Hts).
        nia. }
    split.
    + intros signals. apply polling_safe; [assumption |].
      rewrite wrap64_id by (unfold int64, MinInt64, MaxInt64 in *; lia).
      lia.
    + intros Hnext. split.
      * intros signals.
        apply polling_fires_at_next_multiple; (assumption || lia).
      * intros c uh Huh. cbv zeta. unfold PollState_Handle.
        change (TimeStep (record _ uh)) with (TimeStep uh). rewrite Huh.
        rewrite polling_fires_at_next_multiple by (assumption || lia).
        destruct (_ <? _); reflexivity.
Qed.

Lemma poll_ticks_witness :
  (forall rest, polling Second (Second - 1) (Tick :: rest) 0 = DivideByZero)
  /\ (forall signals,
        polling Second (10 * Second) signals 0
        = if 0 + ticks_of signals <? 10
          then Waiting (0 + ticks_of signals) else Fired 10).
Proof.
  assert (Hs : int64 Second /\ int64 (Second - 1) /\ int64 (10 * Second))
    by (unfold int64, MinInt64, MaxInt64, Second; lia).
  destruct Hs as [Hs [Hs1 Hs10]].
  assert (H0 : 0 <= 0 < MaxInt64) by (unfold MaxInt64; lia).
  split.
  - exact (proj1 (poll_ticks Second (Second - 1) 0 Hs Hs1 eq_refl H0)
             eq_refl).
  - apply (proj2 (proj2 (proj2 (proj2
             (poll_ticks Second (10 * Second) 0 Hs Hs10 eq_refl H0))))).
    + unfold Second. lia.
    + vm_compute. discriminate.
Defined.

(** C9, as stated, fails: with a time step of one second and an interval
    of minus ten seconds the quotient is -10, no division by zero is
    reachable, and the interval is below the time step. *)
Lemma negative_interval_polls_without_panic :
  ~ poll_total_only_from_time_step.
Proof.
  intro H.
  assert (Hle : Second <= - (10 * Second)).
  { apply H.
    - unfold int64, MinInt64, MaxInt64, Second. lia.
    - unfold int64, MinInt64, MaxInt64, Second. lia.
    - reflexivity.
    - intros signals. apply polling_safe; [reflexivity |].
      vm_compute. discriminate. }
  unfold Second in Hle. lia.
Qed.

(** ** The daemon loop *)

Lemma LoopTrace_handler_events evs :
  LoopTrace evs -> Forall handler_event evs.
Proof.
  induction 1 as [|o e|o e|o mid err switch rest Hmid Hsw _ IH];
    repeat constructor.
  apply Forall_app. split.
  - revert Hmid. apply List.Forall_impl.
    intros [] Hstep; simpl in *; (exact I || contradiction).
  - constructor; [exact I |]. apply Forall_app. split; [| exact IH].
    destruct Hsw as [-> | [i [e ->]]]; repeat constructor.
Qed.

Lemma prologue_handler_events evs :
  Forall prologue_event evs -> Forall handler_event evs.
Proof.
  apply List.Forall_impl.
  intros [] Hp; simpl in *; (exact I || contradiction).
Qed.

(** A handler that returns has added events of its own only. *)
Lemma Handle_trace c fuel s uh s' uh' :
  Handle c fuel s uh = Returned (s', uh') ->
  ID s <> UpdateHubStateExit /\
  exists evs, trace uh' = trace uh ++ evs /\ Forall handler_event evs.
Proof.
  intros H. split; [destruct s; simpl in *; discriminate |].
  destruct s; simpl in H.
  - unfold IdleState_Handle, Now in H.
    destruct (negb _); [| simpl in H; destruct (_ && _)];
      inversion H; subst; simpl; eexists; split; try reflexivity;
      repeat constructor.
  - unfold PollState_Handle in H.
    destruct (polling _ _ _ _); inversion H; subst; simpl;
      eexists; split; try reflexivity; repeat constructor.
  - probe_cases H; rewrite <- ?app_assoc; simpl;
      eexists; split; try reflexivity; repeat constructor.
  - unfold DownloadingState_Handle in H.
    destruct (Controller_FetchUpdate _ _ _); inversion H; subst; simpl;
      eexists; split; try reflexivity; repeat constructor.
  - apply InstallingState_Handle_trace in H.
    destruct H as [pre [loop [Ht [Hpre Hloop]]]].
    exists (pre ++ loop). split; [exact Ht |].
    apply Forall_app. split.
    + now apply prologue_handler_events.
    + now apply LoopTrace_handler_events.
  - inversion H; subst. exists []. split; [apply app_nil_end' | constructor].
  - inversion H; subst. exists []. split; [apply app_nil_end' | constructor].
  - discriminate.
  - unfold ErrorState_Handle in H.
    destruct (IsFatal cause); inversion H; subst;
      exists []; (split; [apply app_nil_end' | constructor]).
Qed.

Lemma Daemon_Run_trace c :
  forall fuel state uh code final uh',
    Daemon_Run c fuel state uh = Returned (code, final, uh') ->
    code = exit_code final /\
    (ID final = UpdateHubStateExit \/ daemon_stop c (trace uh') = true) /\
    exists evs, trace uh' = trace uh ++ evs /\ RunTrace evs.
Proof.
  induction fuel as [|fuel IH]; intros state uh code final uh' H;
    simpl in H; [discriminate |].
  destruct (Handle _ _ _ _) as [[next uh1] | |] eqn:Eh; try discriminate.
  apply Handle_trace in Eh. destruct Eh as [Hid [hevs [Ht Hh]]].
  simpl in Ht.
  destruct (daemon_stop c (trace uh1) || _) eqn:Estop.
  - assert (Hret : code = exit_code final /\ final = next /\ uh' = uh1)
      by (destruct next; inversion H; subst; auto).
    destruct Hret as [-> [-> ->]]. split; [reflexivity |]. split.
    + apply orb_true_iff in Estop. destruct Estop as [Hs | He]; auto.
      left. destruct (ID next); (reflexivity || discriminate).
    + exists (EvReport state :: EvHandle state :: hevs).
      rewrite Ht, <- !app_assoc. split; [reflexivity |].
      rewrite (app_nil_end' hevs). now constructor; [| | constructor].
  - apply IH in H. destruct H as [Hc [Hend [evs [Hevs Hrun]]]].
    split; [exact Hc |]. split; [exact Hend |].
    exists (EvReport state :: EvHandle state :: hevs ++ evs).
    rewrite Hevs, Ht, <- !app_assoc. split; [reflexivity |].
    now constructor.
Qed.

Lemma handler_events_not_reported hevs rest :
  Forall handler_event hevs ->
  reported (hevs ++ rest) = reported rest /\
  handled (hevs ++ rest) = handled rest.
Proof.
  induction 1 as [|e hevs He _ IH]; [auto |].
  destruct e; simpl in *; (contradiction || exact IH).
Qed.

Lemma RunTrace_handle evs :
  RunTrace evs ->
  forall pre s post,
    evs = pre ++ EvHandle s :: post -> exists pre', pre = pre' ++ [EvReport s].
Proof.
  induction 1 as [|s0 hevs rest Hid Hh _ IH]; intros pre s post Heq.
  - destruct pre; discriminate.
  - destruct pre as [|e1 [|e2 pre]]; try discriminate.
    + inversion Heq; subst. now exists [].
    + inversion Heq as [[H1 H2 H3]]. subst e1 e2. symmetry in H3.
      apply split_past in H3.
      * destruct H3 as [p [-> Hp]]. destruct (IH _ _ _ Hp) as [p' ->].
        exists (EvReport s0 :: EvHandle s0 :: hevs ++ p'). simpl.
        now rewrite <- app_assoc.
      * intro Hin. rewrite List.Forall_forall in Hh. exact (Hh _ Hin).
Qed.

Lemma RunTrace_report evs :
  RunTrace evs ->
  forall pre s post,
    evs = pre ++ EvReport s :: post -> exists post', post = EvHandle s :: post'.
Proof.
  induction 1 as [|s0 hevs rest Hid Hh _ IH]; intros pre s post Heq.
  - destruct pre; discriminate.
  - destruct pre as [|e1 [|e2 pre]]; try discriminate.
    + inversion Heq; subst. eauto.
    + inversion Heq as [[H1 H2 H3]]. symmetry in H3.
      apply split_past in H3.
      * destruct H3 as [p [_ Hp]]. exact (IH _ _ _ Hp).
      * intro Hin. rewrite List.Forall_forall in Hh. exact (Hh _ Hin).
Qed.

Lemma RunTrace_reported evs :
  RunTrace evs ->
  reported evs = handled evs /\
  Forall (fun s => ID s <> UpdateHubStateExit) (reported evs).
Proof.
  induction 1 as [|s0 hevs rest Hid Hh _ [IH1 IH2]]; simpl.
  - split; constructor.
  - destruct (handler_events_not_reported hevs rest Hh) as [-> Hhd].
    split.
    + (* the report of [s0], then the handler of [s0] *)
      assert (Hs : handled (EvHandle s0 :: hevs ++ rest)
                   = s0 :: handled rest) by (simpl; now rewrite Hhd).
      destruct s0; simpl in *; rewrite ?Hhd; now f_equal.
    + constructor; assumption.
Qed.

(** The last iteration of a run of the daemon loop that returns. *)
Lemma Daemon_Run_last c :
  forall fuel state uh code final uh',
    Daemon_Run c fuel state uh = Returned (code, final, uh') ->
    exists pre last hevs fuel' before,
      trace uh' = trace uh ++ pre ++ EvReport last :: EvHandle last :: hevs /\
      Forall handler_event hevs /\
      trace before = trace uh ++ pre ++ [EvReport last; EvHandle last] /\
      Handle c fuel' last before = Returned (final, uh').
Proof.
  induction fuel as [|fuel IH]; intros state uh code final uh' H;
    simpl in H; [discriminate |].
  destruct (Handle _ _ _ _) as [[next uh1] | |] eqn:Eh; try discriminate.
  destruct (Handle_trace _ _ _ _ _ _ Eh) as [_ [hevs [Ht Hh]]].
  simpl in Ht.
  destruct (daemon_stop c (trace uh1) || _) eqn:Estop.
  - assert (Hret : final = next /\ uh' = uh1)
      by (destruct next; inversion H; subst; auto).
    destruct Hret as [-> ->].
    exists [], state, hevs, (S fuel),
      (record (EvHandle state) (record (EvReport state) uh)).
    simpl. rewrite Ht, <- !app_assoc. auto.
  - apply IH in H.
    destruct H as [pre [last [hevs' [fuel' [before [Ht' [Hh' [Hb Hl]]]]]]]].
    exists (EvReport state :: EvHandle state :: hevs ++ pre),
      last, hevs', fuel', before.
    rewrite Ht', Hb, Ht, <- !app_assoc. simpl. rewrite <- !app_assoc. auto.
Qed.

(** C8, as amended.  In a run of the daemon loop that returns: every call
    of a handler comes right after the report of the same state, every
    report is followed at once by the handler of the state reported, so
    that the states reported are exactly the states handled, in order; no
    exit state is among them; and the loop ends, in an exit state or on the
    stop flag, right after the handler that hands back the state it ends
    in: after the call of that handler nothing is reported. *)
Theorem report_before_each_handler c fuel state uh code final uh' evs :
  Daemon_Run c fuel state uh = Returned (code, final, uh') ->
  trace uh' = trace uh ++ evs ->
  (forall pre s post,
     evs = pre ++ EvHandle s :: post ->
     exists pre', pre = pre' ++ [EvReport s]) /\
  (forall pre s post,
     evs = pre ++ EvReport s :: post ->
     exists post', post = EvHandle s :: post') /\
  reported evs = handled evs /\
  (forall exitCode, ~ In (ExitState exitCode) (reported evs)) /\
  (ID final = UpdateHubStateExit \/ daemon_stop c (trace uh') = true) /\
  code = exit_code final /\
  (exists pre last hevs,
     evs = pre ++ EvReport last :: EvHandle last :: hevs /\
     Forall handler_event hevs /\
     exists fuel' before,
       trace before = trace uh ++ pre ++ [EvReport last; EvHandle last] /\
       Handle c fuel' last before = Returned (final, uh')).
Proof.
  intros Hrun Ht.
  destruct (Daemon_Run_last _ _ _ _ _ _ _ Hrun)
    as [pre [last [hevs [fuel' [before [Hl [Hh [Hb Hf]]]]]]]].
  apply Daemon_Run_trace in Hrun.
  destruct Hrun as [Hcode [Hend [evs' [Ht' Hrt]]]].
  rewrite Ht in Ht', Hl. apply app_inv_head in Ht', Hl. subst evs'.
  destruct (RunTrace_reported _ Hrt) as [Heq Hne].
  repeat split; auto.
  - exact (RunTrace_handle _ Hrt).
  - exact (RunTrace_report _ Hrt).
  - intros exitCode Hin. rewrite List.Forall_forall in Hne.
    exact (Hne _ Hin eq_refl).
  - exists pre, last, hevs. repeat split; eauto.
Qed.

Lemma report_before_each_handler_witness :
  reported [EvReport (ErrorState (NewFatalError "corrupt") None);
            EvHandle (ErrorState (NewFatalError "corrupt") None)]
  = handled [EvReport (ErrorState (NewFatalError "corrupt") None);
             EvHandle (ErrorState (NewFatalError "corrupt") None)]
  /\ 1 = exit_code (ExitState 1).
Proof.
  pose proof (report_before_each_handler all_good 1
                (ErrorState (NewFatalError "corrupt") None) (agent 0 "")
                1 (ExitState 1)
                (mkUpdateHub (settings0 0) "" Second
                   [EvReport (ErrorState (NewFatalError "corrupt") None);
                    EvHandle (ErrorState (NewFatalError "corrupt") None)])
                _ eq_refl eq_refl) as H.
  split; apply H.
Defined.

(** C8, as stated, fails: from an Error state with a fatal cause the loop
    enters the state Exit(1) and returns 1; the only state reported is the
    Error state. *)
Lemma exit_state_never_reported : ~ every_entered_state_reported.
Proof.
  intro H.
  specialize (H all_good 1%nat
                (ErrorState (NewFatalError "corrupt") None) (agent 0 "")
                1 (ExitState 1)
                (mkUpdateHub (settings0 0) "" Second
                   [EvReport (ErrorState (NewFatalError "corrupt") None);
                    EvHandle (ErrorState (NewFatalError "corrupt") None)])
                _ eq_refl eq_refl).
  simpl in H. destruct H as [H | []]. discriminate H.
Qed.

(** ** The probe client *)

Example ParseInt_examples :
  Client.ParseInt "300" = Some 300 /\
  Client.ParseInt "-1" = Some (-1) /\
  Client.ParseInt "+7" = Some 7 /\
  Client.ParseInt "" = None /\
  Client.ParseInt "-" = None /\
  Client.ParseInt "12s" = None /\
  Client.ParseInt "9223372036854775807" = Some MaxInt64 /\
  Client.ParseInt "9223372036854775808" = None /\
  Client.ParseInt "-9223372036854775808" = Some MinInt64.
Proof. repeat split. Qed.

(** C7, as amended.  For a probe whose exchange succeeds (the request is
    built, the server answers, and the answer is a descriptor or "no
    update"): without the header the extra poll is zero; with a header
    that parses as an integer the extra poll is [time.Duration] of that
    integer, a count of nanoseconds; in both cases the result of the
    exchange is returned without error.  With a header that does not
    parse, the probe is an error: no descriptor, zero, and "failed to parse
    extra poll header". *)
Theorem CheckUpdate_extra_poll (Data ApiClient : Type) NewUpdateMetadata
    json_Marshal serverURL http_NewRequest
    (api : Client.ApiRequester ApiClient) uri (data : Data) req res r :
  http_NewRequest "POST" (serverURL (Client.api_Client api) uri)
    (json_Marshal data) = inl req ->
  Client.Do api (Client.set_Header "Content-Type" "application/json" req)
  = inl res ->
  Client.processUpgradeResponse NewUpdateMetadata res = (r, None) ->
  Client.CheckUpdate Data ApiClient NewUpdateMetadata json_Marshal
    serverURL http_NewRequest (Some api) uri data
  = match Client.Header res !! "Add-Extra-Poll" with
    | None => (r, 0, None)
    | Some v =>
        match Client.ParseInt (Client.Join v "") with
        | Some extraPoll => (r, extraPoll, None)
        | None => (None, 0, Some "failed to parse extra poll header")
        end
    end.
Proof.
  intros Hreq Hdo Hres. unfold Client.CheckUpdate.
  rewrite Hreq, Hdo, Hres.
  destruct (Client.Header res !! "Add-Extra-Poll") as [v|]; [| reflexivity].
  destruct (Client.ParseInt _); reflexivity.
Qed.

Lemma CheckUpdate_extra_poll_witness :
  probe (no_update ["300"]) = (None, 300, None).
Proof.
  exact (CheckUpdate_extra_poll unit unit (fun _ => inl single_um)
           (fun _ => "{}") (fun _ uri => uri) plain_request
           (server (no_update ["300"])) "/upgrades" tt _ _ None
           eq_refl eq_refl eq_refl).
Defined.

(** C7, as stated, fails twice.  The server answers "no update" with the
    header [Add-Extra-Poll: soon]: the probe is an error.  The server
    answers with the header [Add-Extra-Poll: 300]: the duration returned is
    300 ns, not 300 s. *)
Lemma malformed_header_errs_and_seconds_come_back_as_nanoseconds :
  ~ missing_or_malformed_header_is_zero /\ ~ well_formed_header_is_seconds.
Proof.
  split; intro H.
  - specialize (H unit unit (fun _ => inl single_um)
                  (fun _ => "{}") (fun _ uri => uri) plain_request
                  (server (no_update ["soon"])) "/upgrades" tt _ _ None
                  eq_refl eq_refl eq_refl).
    assert (Hbad : probe (no_update ["soon"]) = (None, 0, None)).
    { apply H. right. exists ["soon"]. split; reflexivity. }
    vm_compute in Hbad. discriminate Hbad.
  - specialize (H unit unit (fun _ => inl single_um)
                  (fun _ => "{}") (fun _ uri => uri) plain_request
                  (server (no_update ["300"])) "/upgrades" tt _ _ None
                  ["300"] 300 eq_refl eq_refl eq_refl eq_refl eq_refl).
    vm_compute in H. discriminate H.
Qed.

(** ** More on the install pipeline *)

Ltac oracle_cases H :=
  repeat match type of H with
         | context [CheckDownloadedObjectSha256sum ?c ?h ?d ?s] =>
             destruct (CheckDownloadedObjectSha256sum c h d s) eqn:?;
             simpl in H
         | context [handler_Setup ?c ?h ?o] =>
             destruct (handler_Setup c h o) eqn:?; simpl in H
         | context [InstallIfDifferent_Proceed ?c ?h ?o] =>
             destruct (InstallIfDifferent_Proceed c h o) as [[|] [|]] eqn:?;
             simpl in H
         | context [handler_Install ?c ?h ?o ?d] =>
             destruct (handler_Install c h o d) eqn:?; simpl in H
         | context [handler_Cleanup ?c ?h ?o] =>
             destruct (handler_Cleanup c h o) eqn:?; simpl in H
         | context [(length (Objects ?um) =? 2)%nat] =>
             destruct (length (Objects um) =? 2)%nat eqn:?; simpl in H
         | context [activeInactive_SetActive ?c ?h ?i] =>
             destruct (activeInactive_SetActive c h i) eqn:?; simpl in H
         end.

(** What a run of the object loop leaves and returns. *)
Lemma install_objects_effects c um i objects :
  forall uh st uh',
    install_objects c um i objects uh = (st, uh') ->
    settings uh' = settings uh /\
    lastInstalledPackageUID uh' = lastInstalledPackageUID uh /\
    TimeStep uh' = TimeStep uh /\
    (st = InstalledState um \/
     exists e, st = ErrorState (NewTransientError e) (Some um)).
Proof.
  induction objects as [|o rest IH]; intros uh st uh' H; simpl in H.
  - inversion H; subst. auto.
  - oracle_cases H;
      first [ apply IH in H; simpl in H; exact H
            | inversion H; subst; simpl; eauto 6 ].
Qed.

(** The calls of a run of the object loop come in the fixed order, the
    indices given to [SetActive] are the index to install, and a run that
    ends in the installed state has set up and cleaned up every object, in
    order, without any error. *)
Lemma install_objects_calls c um i objects :
  forall uh st uh',
    install_objects c um i objects uh = (st, uh') ->
    exists evs,
      trace uh' = trace uh ++ evs /\
      (forall prev, ordered prev evs) /\
      Forall (fun e => match e with
                       | EvSetActive j _ =>
                           j = i /\ length (Objects um) = 2%nat
                       | EvActive _ _ => False
                       | _ => True
                       end) evs /\
      (forall um', st = InstalledState um' ->
         setups evs = objects /\ cleanups evs = objects /\
         Forall (fun e => error_of e = None) evs).
Proof.
  induction objects as [|o rest IH]; intros uh st uh' H; simpl in H.
  - inversion H; subst. exists []. simpl.
    repeat split; auto using app_nil_end'.
  - oracle_cases H;
      try (apply IH in H;
           destruct H as [evs [Ht [Hord [Hslot Hdone]]]];
           rewrite Ht; simpl; rewrite <- ?app_assoc; simpl);
      try (inversion H; subst; simpl; rewrite <- ?app_assoc; simpl);
      (eexists; split; [reflexivity |]);
      repeat match goal with
             | E : (length _ =? 2)%nat = true |- _ =>
                 apply Nat.eqb_eq in E
             end.
    all: split; [intros prev; simpl; repeat split; eauto |].
    all: split; [repeat (constructor; auto) |].
    all: intros um' Hst; try discriminate.
    all: destruct (Hdone um' Hst) as [Hs [Hc Hok]];
      simpl; rewrite Hs, Hc; repeat split; repeat constructor; auto.
Qed.

Lemma loop_slot_calls (um : UpdateMetadata) (i : Z) (evs : list Event) :
  Forall (fun e => match e with
                   | EvSetActive j _ => j = i /\ length (Objects um) = 2%nat
                   | EvActive _ _ => False
                   | _ => True
                   end) evs ->
  (forall j err, In (EvSetActive j err) evs ->
     j = i /\ length (Objects um) = 2%nat) /\
  (length (Objects um) <> 2%nat -> Forall (fun e => ~ slot_event e) evs).
Proof.
  intros H. split.
  - intros j err Hin. rewrite List.Forall_forall in H. exact (H _ Hin).
  - intros Hlen. induction H as [|e evs He _ IH]; constructor; [| exact IH].
    destruct e; simpl in *; tauto.
Qed.

(** The calls of a run of the Installing handler. *)
Lemma InstallingState_Handle_calls c um uh st uh' :
  InstallingState_Handle c um uh = Returned (st, uh') ->
  (PackageUID um = lastInstalledPackageUID uh /\
   st = WaitingForRebootState um /\ uh' = uh) \/
  (PackageUID um <> lastInstalledPackageUID uh /\
   settings uh' = settings uh /\ TimeStep uh' = TimeStep uh /\
   lastInstalledPackageUID uh' = PackageUID um /\
   (st = InstalledState um \/
    exists e, st = ErrorState (NewTransientError e) (Some um)) /\
   exists evs,
     trace uh' = trace uh ++ evs /\ ordered None evs /\
     (length (Objects um) <> 2%nat ->
      Forall (fun e => ~ slot_event e) evs) /\
     (forall j err, In (EvSetActive j err) evs ->
        exists a, In (EvActive a None) evs /\ j = inactive_of a) /\
     (st = InstalledState um ->
        exists i objects,
          index_Objects um i = Some objects /\
          setups evs = objects /\ cleanups evs = objects /\
          Forall (fun e => error_of e = None) evs)).
Proof.
  unfold InstallingState_Handle. intros H.
  destruct (String.eqb_spec (PackageUID um) (lastInstalledPackageUID uh))
    as [Heq | Hne].
  { left. inversion H; subst. auto. }
  right. split; [exact Hne |].
  assert (Hshort : forall evs e,
             Forall (fun e => ~ slot_event e \/ exists a err,
                                e = EvActive a (Some err)) evs ->
             ordered None evs ->
             st = ErrorState (NewTransientError e) (Some um) ->
             settings uh' = settings uh -> TimeStep uh' = TimeStep uh ->
             lastInstalledPackageUID uh' = PackageUID um ->
             trace uh' = trace uh ++ evs ->
             Z.of_nat (length (Objects um)) = 2 \/
             Forall (fun e => ~ slot_event e) evs ->
             settings uh' = settings uh /\ TimeStep uh' = TimeStep uh /\
             lastInstalledPackageUID uh' = PackageUID um /\
             (st = InstalledState um \/
              exists e, st = ErrorState (NewTransientError e) (Some um)) /\
             exists evs,
               trace uh' = trace uh ++ evs /\ ordered None evs /\
               (length (Objects um) <> 2%nat ->
                Forall (fun e => ~ slot_event e) evs) /\
               (forall j err, In (EvSetActive j err) evs ->
                  exists a, In (EvActive a None) evs /\ j = inactive_of a) /\
               (st = InstalledState um ->
                  exists i objects,
                    index_Objects um i = Some objects /\
                    setups evs = objects /\ cleanups evs = objects /\
                    Forall (fun e => error_of e = None) evs)).
  { intros evs e Hslot Hord -> Hs Ht Hl Htr Hlen.
    repeat (split; [assumption || eauto |]).
    exists evs. split; [assumption |]. split; [assumption |]. split.
    - intros Hn. destruct Hlen as [Hlen | Hlen]; [lia | exact Hlen].
    - split; [| discriminate].
      intros j err Hin. rewrite List.Forall_forall in Hslot.
      destruct (Hslot _ Hin) as [Hno | [a [err' Ha]]];
        [simpl in Hno; tauto | discriminate]. }
  destruct (CheckSupportedHardware _ _ _) as [e|] eqn:Ehw.
  { inversion H; subst.
    apply (Hshort [EvCheckSupportedHardware um (Some e)] e);
      simpl; auto; try right; repeat constructor; simpl; tauto. }
  unfold GetIndexOfObjectToBeInstalled in H. simpl in H.
  destruct ((_ <? 1) || _) eqn:Ebad.
  { inversion H; subst.
    apply (Hshort [EvCheckSupportedHardware um None]
             ("update metadata must have 1 or 2 objects. Found "
              ++ format_int (Z.of_nat (length (Objects um))))%string);
      simpl; auto; try right; repeat constructor; simpl; tauto. }
  destruct (Z.eqb_spec (Z.of_nat (length (Objects um))) 2) as [Htwo | Hone].
  - destruct (activeInactive_Active _ _) as [a [e|]] eqn:Eact.
    { inversion H; subst.
      apply (Hshort [EvCheckSupportedHardware um None;
                     EvActive a (Some e)] e);
        simpl; rewrite <- ?app_assoc; auto;
        try (constructor;
             [left; simpl; tauto | constructor; [right; eauto | constructor]]);
        try (repeat split; eauto). }
    fold (inactive_of a) in H.
    destruct (index_Objects um (inactive_of a)) as [objects|] eqn:Eidx;
      [| discriminate].
    inversion H as [Hrun]; clear H Hshort.
    destruct (install_objects_effects _ _ _ _ _ _ _ Hrun)
      as [Hs [Hl [Ht Hst]]].
    destruct (install_objects_calls _ _ _ _ _ _ _ Hrun)
      as [evs [Hevs [Hord [Hslot Hdone]]]].
    destruct (loop_slot_calls _ _ _ Hslot) as [Hset _].
    simpl in *. repeat (split; [assumption |]).
    exists (EvCheckSupportedHardware um None :: EvActive a None :: evs).
    rewrite Hevs, <- !app_assoc. simpl.
    split; [reflexivity |]. split; [eauto |]. split; [lia |]. split.
    + intros j err [Hin | [Hin | Hin]]; try discriminate.
      exists a. split; [auto |]. now apply (Hset j err).
    + intros Hi. destruct (Hdone um Hi) as [H1 [H2 H3]].
      exists (inactive_of a), objects. repeat split; auto.
  - destruct (index_Objects um 0) as [objects|] eqn:Eidx; [| discriminate].
    inversion H as [Hrun]; clear H Hshort.
    destruct (install_objects_effects _ _ _ _ _ _ _ Hrun)
      as [Hs [Hl [Ht Hst]]].
    destruct (install_objects_calls _ _ _ _ _ _ _ Hrun)
      as [evs [Hevs [Hord [Hslot Hdone]]]].
    destruct (loop_slot_calls _ _ _ Hslot) as [Hset Hnone].
    simpl in *. repeat (split; [assumption |]).
    exists (EvCheckSupportedHardware um None :: evs).
    rewrite Hevs, <- !app_assoc. simpl.
    split; [reflexivity |]. split; [eauto |]. split; [| split].
    + intros Hlen. constructor; [simpl; tauto | auto].
    + intros j err [Hin | Hin]; try discriminate.
      destruct (Hset j err Hin) as [_ Hlen]. lia.
    + intros Hi. destruct (Hdone um Hi) as [H1 [H2 H3]].
      exists 0, objects. repeat split; auto.
Qed.

(** X1.  A run of the Installing handler that returns, whether the install
    succeeded, failed or was skipped, leaves the fingerprint of the
    descriptor as the one last installed, and writes neither the settings
    nor the time step. *)
Theorem install_registers_fingerprint c um uh st uh' :
  InstallingState_Handle c um uh = Returned (st, uh') ->
  lastInstalledPackageUID uh' = PackageUID um /\
  settings uh' = settings uh /\ TimeStep uh' = TimeStep uh.
Proof.
  intros H. apply InstallingState_Handle_calls in H.
  destruct H as [[Heq [_ ->]] | [_ [Hs [Ht [Hl _]]]]]; auto.
Qed.

Lemma install_registers_fingerprint_witness :
  lastInstalledPackageUID installed_single = PackageUID single_um /\
  settings installed_single = settings (agent 0 "") /\
  TimeStep installed_single = TimeStep (agent 0 "").
Proof.
  exact (install_registers_fingerprint all_good single_um (agent 0 "")
           (InstalledState single_um) installed_single eq_refl).
Defined.

(** X2.  After a run of the Installing handler on a descriptor, whatever
    its result, a second run on the same descriptor, with any
    collaborators, is skipped: it returns WaitingForReboot and leaves the
    agent and the history as they are.  A failed install is therefore not
    tried again. *)
Theorem install_not_repeated c fuel um uh st uh' :
  Handle c fuel (InstallingState um) uh = Returned (st, uh') ->
  forall c' fuel',
    Handle c' fuel' (InstallingState um) uh'
    = Returned (WaitingForRebootState um, uh').
Proof.
  simpl. intros H c' fuel'.
  apply InstallingState_Handle_calls in H.
  assert (Hl : lastInstalledPackageUID uh' = PackageUID um)
    by (destruct H as [[Heq [_ ->]] | [_ [_ [_ [Hl _]]]]]; auto).
  unfold InstallingState_Handle. rewrite Hl, String.eqb_refl. reflexivity.
Qed.

Lemma install_not_repeated_witness :
  Handle all_good 0 (InstallingState two_slot_um)
    (mkUpdateHub (settings0 0) "uid-2" Second
       [EvCheckSupportedHardware two_slot_um None; EvActive 0 None;
        EvCheckSha256sum objB None; EvSetup objB None;
        EvProceed objB true None; EvInstall objB None;
        EvCleanup objB None;
        EvSetActive 1 None;
        EvCheckSha256sum objC None; EvSetup objC None;
        EvProceed objC true None; EvInstall objC (Some "write failed");
        EvCleanup objC None])
  = Returned
      (WaitingForRebootState two_slot_um,
       mkUpdateHub (settings0 0) "uid-2" Second
         [EvCheckSupportedHardware two_slot_um None; EvActive 0 None;
          EvCheckSha256sum objB None; EvSetup objB None;
          EvProceed objB true None; EvInstall objB None;
          EvCleanup objB None;
          EvSetActive 1 None;
          EvCheckSha256sum objC None; EvSetup objC None;
          EvProceed objC true None; EvInstall objC (Some "write failed");
          EvCleanup objC None]).
Proof.
  exact (install_not_repeated last_install_fails 0 two_slot_um (agent 0 "")
           _ _ eq_refl all_good 0%nat).
Defined.

(** X3.  The calls of a run of the Installing handler come in a fixed
    order: Setup right after the sha256 check of the same object passed,
    the InstallIfDifferent check right after Setup succeeded, Install right
    after the check said "install", Cleanup right after Install or after
    the check said "skip", SetActive right after a Cleanup without error,
    and Active right after the hardware check passed. *)
Theorem install_calls_in_order c um uh st uh' evs :
  InstallingState_Handle c um uh = Returned (st, uh') ->
  trace uh' = trace uh ++ evs ->
  ordered None evs.
Proof.
  intros H Ht. apply InstallingState_Handle_calls in H.
  destruct H as [[_ [_ ->]] | [_ [_ [_ [_ [_ [evs' [Ht' [Hord _]]]]]]]]].
  - rewrite (app_nil_end' (trace uh)) in Ht at 1.
    apply app_inv_head in Ht. subst evs. exact I.
  - rewrite Ht in Ht'. apply app_inv_head in Ht'. now subst evs'.
Qed.

Lemma install_calls_in_order_witness :
  ordered None (trace installed_two_slot).
Proof.
  exact (install_calls_in_order (slot_collaborators 1 false) two_slot_um
           (agent 0 "") (InstalledState two_slot_um) installed_two_slot
           (trace installed_two_slot) eq_refl eq_refl).
Defined.

(** X4.  When the Installing handler returns the installed state, it
    carries the descriptor of the run, and the objects set up, in order,
    and the objects cleaned up, in order, are exactly the objects of one
    group of the descriptor; no call of the run returned an error. *)
Theorem installed_means_every_object c um uh um' uh' evs :
  InstallingState_Handle c um uh = Returned (InstalledState um', uh') ->
  trace uh' = trace uh ++ evs ->
  um' = um /\
  exists i objects,
    index_Objects um i = Some objects /\
    setups evs = objects /\ cleanups evs = objects /\
    Forall (fun e => error_of e = None) evs.
Proof.
  intros H Ht. apply InstallingState_Handle_calls in H.
  destruct H as [[_ [Hst _]] | [_ [_ [_ [_ [Hst [evs' [Ht' [_ [_ [_ Hd]]]]]]]]]]];
    [discriminate |].
  rewrite Ht in Ht'. apply app_inv_head in Ht'. subst evs'.
  assert (Hum : um' = um)
    by (destruct Hst as [Hst | [e Hst]]; inversion Hst; reflexivity).
  subst um'. split; [reflexivity |]. now apply Hd.
Qed.

Lemma installed_means_every_object_witness :
  single_um = single_um /\
  exists i objects,
    index_Objects single_um i = Some objects /\
    setups (trace installed_single) = objects /\
    cleanups (trace installed_single) = objects /\
    Forall (fun e => error_of e = None) (trace installed_single).
Proof.
  exact (installed_means_every_object all_good single_um (agent 0 "")
           single_um installed_single (trace installed_single)
           eq_refl eq_refl).
Defined.

(** X5.  The active/inactive backend is called only for a descriptor with
    two object groups: with any other count neither Active nor SetActive is
    called; and the index given to every SetActive is the inactive index
    computed from the answer of Active in the same run. *)
Theorem slot_calls_only_with_two_groups c um uh st uh' evs :
  InstallingState_Handle c um uh = Returned (st, uh') ->
  trace uh' = trace uh ++ evs ->
  (length (Objects um) <> 2%nat -> Forall (fun e => ~ slot_event e) evs) /\
  (forall j err, In (EvSetActive j err) evs ->
     length (Objects um) = 2%nat /\
     exists a, In (EvActive a None) evs /\ j = inactive_of a).
Proof.
  intros H Ht. apply InstallingState_Handle_calls in H.
  destruct H as [[_ [_ ->]] | [_ [_ [_ [_ [_ [evs' [Ht' [_ [Hn [Hs _]]]]]]]]]]].
  - rewrite (app_nil_end' (trace uh)) in Ht at 1.
    apply app_inv_head in Ht. subst evs.
    split; [constructor | intros j err []].
  - rewrite Ht in Ht'. apply app_inv_head in Ht'. subst evs'.
    split; [exact Hn |]. intros j err Hin. split; [| exact (Hs j err Hin)].
    destruct (Nat.eq_dec (length (Objects um)) 2%nat) as [Hlen | Hlen];
      [exact Hlen |].
    specialize (Hn Hlen). rewrite List.Forall_forall in Hn.
    exfalso. apply (Hn _ Hin). exact I.
Qed.

Lemma slot_calls_only_with_two_groups_witness :
  (length (Objects two_slot_um) <> 2%nat ->
   Forall (fun e => ~ slot_event e) (trace installed_two_slot)) /\
  (forall j err, In (EvSetActive j err) (trace installed_two_slot) ->
     length (Objects two_slot_um) = 2%nat /\
     exists a,
       In (EvActive a None) (trace installed_two_slot) /\ j = inactive_of a).
Proof.
  exact (slot_calls_only_with_two_groups (slot_collaborators 1 false)
           two_slot_um (agent 0 "") (InstalledState two_slot_um)
           installed_two_slot (trace installed_two_slot) eq_refl eq_refl).
Defined.

(** For an active index other than 0 and 1 the inactive index is neither 0
    nor 1; for 0 and 1 it is the other one. *)
Lemma inactive_of_range a :
  int64 a ->
  (a = 0 \/ a = 1 -> inactive_of a = 1 - a) /\
  (a <> 0 -> a <> 1 -> inactive_of a < 0 \/ 2 <= inactive_of a).
Proof.
  intros Ha. split.
  - intros [-> | ->]; reflexivity.
  - intros H0 H1. unfold inactive_of.
    unfold int64, MinInt64, MaxInt64 in Ha.
    destruct (Z.eq_dec a (- 2 ^ 63)) as [-> | Hmin];
      [left; vm_compute; reflexivity |].
    destruct (Z.eq_dec a (- 2 ^ 63 + 1)) as [-> | Hmin1];
      [left; vm_compute; reflexivity |].
    rewrite (wrap64_id (a - 1))
      by (unfold int64, MinInt64, MaxInt64; lia).
    rewrite wrap64_id by (unfold int64, MinInt64, MaxInt64; lia).
    lia.
Qed.

(** X6.  With two object groups, a fingerprint that is new and a hardware
    check that passes, the group to install is chosen from the answer of
    Active: for the active index 0 or 1 it is the other index and the
    handler returns; for every other active index the chosen index is out
    of range and the handler panics. *)
Theorem selected_index_in_range_iff_binary_slot c um uh a :
  length (Objects um) = 2%nat ->
  PackageUID um <> lastInstalledPackageUID uh ->
  CheckSupportedHardware c (trace uh) um = None ->
  activeInactive_Active c (trace uh ++ [EvCheckSupportedHardware um None])
  = (a, None) ->
  int64 a ->
  (a = 0 \/ a = 1 ->
   inactive_of a = 1 - a /\
   exists objects,
     index_Objects um (1 - a) = Some objects /\
     InstallingState_Handle c um uh
     = Returned
         (install_objects c um (1 - a) objects
            (record (EvActive a None)
               (record (EvCheckSupportedHardware um None)
                  (set_lastInstalledPackageUID (PackageUID um) uh))))) /\
  (a <> 0 -> a <> 1 ->
   InstallingState_Handle c um uh = Panicked "index out of range").
Proof.
  intros Hlen Huid Hhw Hact Ha.
  destruct (inactive_of_range a Ha) as [Hin Hout].
  apply String.eqb_neq in Huid.
  assert (Hrun : InstallingState_Handle c um uh
                 = match index_Objects um (inactive_of a) with
                   | None => Panicked "index out of range"
                   | Some objects =>
                       Returned
                         (install_objects c um (inactive_of a) objects
                            (record (EvActive a None)
                               (record (EvCheckSupportedHardware um None)
                                  (set_lastInstalledPackageUID
                                     (PackageUID um) uh))))
                   end).
  { unfold InstallingState_Handle, GetIndexOfObjectToBeInstalled.
    rewrite Huid. simpl. rewrite Hhw. simpl. rewrite Hlen. simpl.
    rewrite Hact. reflexivity. }
  split.
  - intros H01. rewrite Hrun, (Hin H01). split; [reflexivity |].
    destruct (Objects um) as [|g0 [|g1 [|]]] eqn:Eo; try discriminate.
    unfold index_Objects. rewrite Eo.
    destruct H01 as [-> | ->]; simpl; eauto.
  - intros H0 H1. rewrite Hrun.
    replace (index_Objects um (inactive_of a)) with (@None (list Object));
      [reflexivity |].
    unfold index_Objects.
    destruct (Z.ltb_spec (inactive_of a) 0); [reflexivity |].
    symmetry. apply nth_error_None. rewrite Hlen.
    destruct (Hout H0 H1); lia.
Qed.

Lemma selected_index_witness :
  (exists objects,
     index_Objects two_slot_um (1 - 1) = Some objects /\
     InstallingState_Handle (slot_collaborators 1 false) two_slot_um
       (agent 0 "")
     = Returned
         (install_objects (slot_collaborators 1 false) two_slot_um (1 - 1)
            objects
            (record (EvActive 1 None)
               (record (EvCheckSupportedHardware two_slot_um None)
                  (set_lastInstalledPackageUID (PackageUID two_slot_um)
                     (agent 0 "")))))) /\
  InstallingState_Handle (slot_collaborators 2 false) two_slot_um
    (agent 0 "") = Panicked "index out of range".
Proof.
  assert (H2 : int64 1 /\ int64 2)
    by (unfold int64, MinInt64, MaxInt64; lia).
  split.
  - apply (proj1 (selected_index_in_range_iff_binary_slot
                    (slot_collaborators 1 false) two_slot_um (agent 0 "") 1
                    eq_refl ltac:(discriminate) eq_refl eq_refl
                    (proj1 H2))).
    now right.
  - apply (proj2 (selected_index_in_range_iff_binary_slot
                    (slot_collaborators 2 false) two_slot_um (agent 0 "") 2
                    eq_refl ltac:(discriminate) eq_refl eq_refl
                    (proj2 H2)));
      discriminate.
Defined.

(** ** The state machine *)

(** Every transition of a handler is one of [Successor]. *)
Lemma Handle_successor c fuel s uh s' uh' :
  Handle c fuel s uh = Returned (s', uh') -> Successor uh s s'.
Proof.
  intros H. destruct s; simpl in H.
  - unfold IdleState_Handle, Now in H.
    destruct (negb _); [| simpl in H; destruct (_ && _)];
      inversion H; subst; constructor.
  - unfold PollState_Handle in H.
    destruct (polling _ _ _ _); inversion H; subst; constructor.
  - probe_cases H; constructor; now apply Z.ltb_lt.
  - unfold DownloadingState_Handle in H.
    destruct (Controller_FetchUpdate _ _ _); inversion H; subst; constructor.
  - apply InstallingState_Handle_calls in H.
    destruct H as [[Heq [-> _]] | [Hne [_ [_ [_ [[-> | [e ->]] _]]]]]];
      now constructor.
  - inversion H; subst. constructor.
  - inversion H; subst. constructor.
  - discriminate.
  - unfold ErrorState_Handle in H.
    destruct (IsFatal cause) eqn:Ef; inversion H; subst; now constructor.
Qed.

(** What a handler writes: the settings are written by the update check
    only, the fingerprint last installed by the Installing handler only,
    and the configuration by none. *)
Lemma Handle_writes c fuel s uh s' uh' :
  Handle c fuel s uh = Returned (s', uh') ->
  (ID s <> UpdateHubStateUpdateCheck -> settings uh' = settings uh) /\
  (ID s <> UpdateHubStateInstalling ->
   lastInstalledPackageUID uh' = lastInstalledPackageUID uh) /\
  configuration uh' = configuration uh.
Proof.
  intros H. destruct s; simpl in H.
  - unfold IdleState_Handle, Now in H.
    destruct (negb _); [| simpl in H; destruct (_ && _)];
      inversion H; subst; auto.
  - unfold PollState_Handle in H.
    destruct (polling _ _ _ _); inversion H; subst; auto.
  - probe_cases H; repeat split; intros; try reflexivity;
      simpl in *; congruence.
  - unfold DownloadingState_Handle in H.
    destruct (Controller_FetchUpdate _ _ _); inversion H; subst; auto.
  - apply InstallingState_Handle_calls in H.
    unfold configuration.
    destruct H as [[_ [_ ->]] | [_ [Hs [Ht _]]]];
      [auto | rewrite Hs, Ht; repeat split; auto; simpl; congruence].
  - inversion H; subst. auto.
  - inversion H; subst. auto.
  - discriminate.
  - unfold ErrorState_Handle in H.
    destruct (IsFatal cause); inversion H; subst; auto.
Qed.

(** X7.  Every transition that a handler makes is an edge of the state
    diagram: Idle to Idle, UpdateCheck or Poll; Poll to Poll or
    UpdateCheck; UpdateCheck to Downloading, Poll or Idle; Downloading to
    Installing or Error; Installing to WaitingForReboot, Installed or
    Error; WaitingForReboot and Installed to Idle; Error to Exit or
    Idle. *)
Theorem handler_edges c fuel s uh s' uh' :
  Handle c fuel s uh = Returned (s', uh') -> edge (ID s) (ID s') = true.
Proof.
  intros H. apply Handle_successor in H. destruct H; reflexivity.
Qed.

Lemma handler_edges_witness :
  edge (ID (DownloadingState single_um)) (ID (InstallingState single_um))
  = true.
Proof.
  exact (handler_edges all_good 0 (DownloadingState single_um) (agent 0 "")
           (InstallingState single_um)
           (mkUpdateHub (settings0 0) "" Second
              [EvFetchUpdate single_um None])
           eq_refl).
Defined.

(** X8.  A handler that returns from a state with a descriptor hands the
    same descriptor to the next state, unless the next state is Idle; an
    Error state in particular keeps the descriptor of the state that
    failed. *)
Theorem descriptor_carried_over c fuel s uh s' uh' um :
  Handle c fuel s uh = Returned (s', uh') ->
  updateMetadata_of s = Some um ->
  updateMetadata_of s' = Some um \/ s' = IdleState \/ s' = ExitState 1.
Proof.
  intros H Hum. apply Handle_successor in H.
  destruct H; simpl in *; try discriminate; auto.
Qed.

Lemma descriptor_carried_over_witness :
  updateMetadata_of
    (ErrorState (NewTransientError "write failed") (Some two_slot_um))
  = Some two_slot_um \/
  ErrorState (NewTransientError "write failed") (Some two_slot_um)
  = IdleState \/
  ErrorState (NewTransientError "write failed") (Some two_slot_um)
  = ExitState 1.
Proof.
  exact (descriptor_carried_over last_install_fails 0
           (InstallingState two_slot_um) (agent 0 "") _ _ two_slot_um
           eq_refl eq_refl).
Defined.

(** X9.  Every Error state that a handler returns has a transient cause,
    and Exit is returned by the handler of an Error state with a fatal
    cause only, with the exit code 1: no failure of a probe, download or
    install ends the daemon. *)
Theorem handlers_fail_transiently c fuel s uh s' uh' :
  Handle c fuel s uh = Returned (s', uh') ->
  (forall cause d, s' = ErrorState cause d -> IsFatal cause = false) /\
  (forall exitCode, s' = ExitState exitCode ->
     exitCode = 1 /\ fatal_error s).
Proof.
  intros H. apply Handle_successor in H.
  split; intros; destruct H; try discriminate;
    match goal with
    | E : _ = _ |- _ => inversion E; subst; simpl; auto
    end.
Qed.

Lemma handlers_fail_transiently_witness :
  IsFatal (NewTransientError "write failed") = false.
Proof.
  exact (proj1 (handlers_fail_transiently last_install_fails 0
                  (InstallingState two_slot_um) (agent 0 "") _ _ eq_refl)
           _ _ eq_refl).
Defined.

(** X10.  What the handlers write: only the UpdateCheck handler writes the
    settings, and of them it leaves polling_enabled, polling_interval,
    first_poll and download_dir alone; only the Installing handler writes
    the fingerprint last installed; none writes the time step. *)
Theorem settings_written_by_update_check_only c fuel s uh s' uh' :
  Handle c fuel s uh = Returned (s', uh') ->
  (ID s <> UpdateHubStateUpdateCheck -> settings uh' = settings uh) /\
  (ID s <> UpdateHubStateInstalling ->
   lastInstalledPackageUID uh' = lastInstalledPackageUID uh) /\
  PollingEnabled (settings uh') = PollingEnabled (settings uh) /\
  PollingInterval (settings uh') = PollingInterval (settings uh) /\
  FirstPoll (settings uh') = FirstPoll (settings uh) /\
  DownloadDir (settings uh') = DownloadDir (settings uh) /\
  TimeStep uh' = TimeStep uh.
Proof.
  intros H. apply Handle_writes in H. destruct H as [Hs [Hl Hc]].
  unfold configuration in Hc. inversion Hc. auto 10.
Qed.

Lemma settings_written_by_update_check_only_witness :
  PollingInterval
    (settings
       (mkUpdateHub
          (mkSettings true (10 * Second) 0 0 0 1 "/tmp/download") ""
          Second [EvCheckUpdate 3 None 0; EvNow 0]))
  = PollingInterval (settings (agent 3 "")).
Proof.
  apply (settings_written_by_update_check_only all_good 0 UpdateCheckState
           (agent 3 "") IdleState
           (mkUpdateHub
              (mkSettings true (10 * Second) 0 0 0 1 "/tmp/download") ""
              Second [EvCheckUpdate 3 None 0; EvNow 0])
           eq_refl).
Defined.

(** ** More on the daemon loop *)

Lemma Successor_facts uh s s' :
  Successor uh s s' ->
  edge (ID s) (ID s') = true /\
  ~ fatal_error s' /\
  (fatal_error s -> s' = ExitState 1) /\
  (~ fatal_error s -> ID s' <> UpdateHubStateExit).
Proof.
  intros H. destruct H; simpl; repeat split; auto;
    try discriminate; try congruence; try tauto.
Qed.

Lemma linked_cons a b rest :
  edge (ID a) (ID b) = true -> linked (b :: rest) -> linked (a :: b :: rest).
Proof. intros. simpl. auto. Qed.

(** The run of the daemon loop, iteration by iteration. *)
Lemma Daemon_Run_path c :
  forall fuel state uh code final uh',
    Daemon_Run c fuel state uh = Returned (code, final, uh') ->
    configuration uh' = configuration uh /\
    (fatal_error state -> code = 1 /\ final = ExitState 1) /\
    (~ fatal_error state ->
     code = 0 /\ ID final <> UpdateHubStateExit /\
     daemon_stop c (trace uh') = true) /\
    exists evs path,
      trace uh' = trace uh ++ evs /\
      reported evs = state :: path /\
      linked (state :: path ++ [final]).
Proof.
  induction fuel as [|fuel IH]; intros state uh code final uh' H;
    simpl in H; [discriminate |].
  destruct (Handle _ _ _ _) as [[next uh1] | |] eqn:Eh; try discriminate.
  pose proof (Handle_successor _ _ _ _ _ _ Eh) as Hsucc.
  apply Successor_facts in Hsucc.
  destruct Hsucc as [Hedge [Hnf [Hfatal Hno]]].
  pose proof (Handle_writes _ _ _ _ _ _ Eh) as [_ [_ Hconf]].
  apply Handle_trace in Eh. destruct Eh as [_ [hevs [Ht Hh]]].
  simpl in Ht.
  destruct (handler_events_not_reported hevs [] Hh) as [Hrep _].
  rewrite app_nil_r in Hrep.
  destruct (daemon_stop c (trace uh1) || _) eqn:Estop.
  - assert (Hret : code = exit_code final /\ final = next /\ uh' = uh1)
      by (destruct next; inversion H; subst; auto).
    destruct Hret as [-> [-> ->]].
    split; [exact Hconf |]. split; [| split].
    + intros Hf. rewrite (Hfatal Hf). auto.
    + intros Hf. specialize (Hno Hf).
      split; [destruct next; simpl in *; congruence |].
      split; [exact Hno |].
      apply orb_true_iff in Estop. destruct Estop as [Hs | He]; auto.
      destruct next; simpl in *; congruence.
    + exists (EvReport state :: EvHandle state :: hevs), [].
      rewrite Ht, <- !app_assoc. simpl. rewrite Hrep. auto.
  - apply orb_false_iff in Estop. destruct Estop as [_ Hne].
    apply IH in H. destruct H as [Hc [_ [Hrun [evs [path [Hevs [Hr Hl]]]]]]].
    destruct (Hrun Hnf) as [Hcode [Hfin Hstop]].
    split; [now rewrite Hc |]. split; [| split].
    + intros Hf. rewrite (Hfatal Hf) in Hne. discriminate.
    + auto.
    + exists (EvReport state :: EvHandle state :: hevs ++ evs), (next :: path).
      rewrite Hevs, Ht, <- !app_assoc. simpl.
      destruct (handler_events_not_reported hevs evs Hh) as [-> _].
      rewrite Hr. auto.
Qed.

(** X11.  In a run of the daemon loop that returns, the states reported,
    in order and followed by the state the loop ends in, form a path of the
    state diagram that starts at the state the loop was started in. *)
Theorem daemon_reports_a_path c fuel state uh code final uh' evs :
  Daemon_Run c fuel state uh = Returned (code, final, uh') ->
  trace uh' = trace uh ++ evs ->
  exists path,
    reported evs = state :: path /\ linked (state :: path ++ [final]).
Proof.
  intros H Ht. apply Daemon_Run_path in H.
  destruct H as [_ [_ [_ [evs' [path [Ht' [Hr Hl]]]]]]].
  rewrite Ht in Ht'. apply app_inv_head in Ht'. subst evs'. eauto.
Qed.

(** X12.  The exit code of the daemon loop.  Started in an Error state
    with a fatal cause, the loop returns 1 in its first iteration, in the
    state Exit(1), having reported and handled the Error state only,
    whatever the stop flag.  Started in any other state, a run that returns
    never ends in an Exit state: it ends on the stop flag and returns 0. *)
Theorem daemon_exit_code c fuel state uh :
  (fatal_error state ->
   Daemon_Run c (S fuel) state uh
   = Returned (1, ExitState 1,
               record (EvHandle state) (record (EvReport state) uh))) /\
  (forall code final uh',
     Daemon_Run c fuel state uh = Returned (code, final, uh') ->
     (fatal_error state -> code = 1 /\ final = ExitState 1) /\
     (~ fatal_error state ->
      code = 0 /\ ID final <> UpdateHubStateExit /\
      daemon_stop c (trace uh') = true)).
Proof.
  split.
  - destruct state; simpl; try contradiction. intros Hf.
    unfold ErrorState_Handle. rewrite Hf. simpl.
    now rewrite orb_true_r.
  - intros code final uh' H. apply Daemon_Run_path in H. tauto.
Qed.

(** X13.  A run of the daemon loop that returns leaves polling_enabled,
    polling_interval, first_poll, download_dir and the time step as they
    were. *)
Theorem daemon_keeps_configuration c fuel state uh code final uh' :
  Daemon_Run c fuel state uh = Returned (code, final, uh') ->
  PollingEnabled (settings uh') = PollingEnabled (settings uh) /\
  PollingInterval (settings uh') = PollingInterval (settings uh) /\
  FirstPoll (settings uh') = FirstPoll (settings uh) /\
  DownloadDir (settings uh') = DownloadDir (settings uh) /\
  TimeStep uh' = TimeStep uh.
Proof.
  intros H. apply Daemon_Run_path in H. destruct H as [Hc _].
  unfold configuration in Hc. inversion Hc. auto.
Qed.

Lemma daemon_reports_a_path_witness :
  exists path,
    reported (trace after_no_update) = IdleState :: path /\
    linked (IdleState :: path ++ [IdleState]).
Proof.
  exact (daemon_reports_a_path no_update_run 3 IdleState (agent 0 "")
           0 IdleState after_no_update (trace after_no_update)
           eq_refl eq_refl).
Defined.

Lemma daemon_exit_code_witness :
  Daemon_Run all_good 1 (ErrorState (NewFatalError "corrupt") None)
    (agent 0 "")
  = Returned
      (1, ExitState 1,
       record (EvHandle (ErrorState (NewFatalError "corrupt") None))
         (record (EvReport (ErrorState (NewFatalError "corrupt") None))
            (agent 0 ""))) /\
  (0 = 0 /\ ID IdleState <> UpdateHubStateExit /\
   daemon_stop no_update_run (trace after_no_update) = true).
Proof.
  split.
  - exact (proj1 (daemon_exit_code all_good 0
                    (ErrorState (NewFatalError "corrupt") None)
                    (agent 0 ""))
             eq_refl).
  - apply (proj2 (daemon_exit_code no_update_run 3 IdleState (agent 0 ""))
             0 IdleState after_no_update eq_refl).
    simpl. tauto.
Defined.

Lemma daemon_keeps_configuration_witness :
  PollingEnabled (settings after_no_update)
  = PollingEnabled (settings (agent 0 "")) /\
  PollingInterval (settings after_no_update)
  = PollingInterval (settings (agent 0 "")) /\
  FirstPoll (settings after_no_update) = FirstPoll (settings (agent 0 "")) /\
  DownloadDir (settings after_no_update)
  = DownloadDir (settings (agent 0 "")) /\
  TimeStep after_no_update = TimeStep (agent 0 "").
Proof.
  exact (daemon_keeps_configuration no_update_run 3 IdleState (agent 0 "")
           0 IdleState after_no_update eq_refl).
Defined.

(** ** More on the poll and the update check *)

(** X14.  A value on the cancel channel that reaches the goroutine of the
    Poll handler changes nothing: the result of the polling loop is the
    result on the ticks alone. *)
Theorem polling_ignores_cancel timeStep interval signals :
  forall ticks,
    polling timeStep interval signals ticks
    = polling timeStep interval (filter is_tick signals) ticks.
Proof.
  induction signals as [|[|] rest IH]; intros ticks.
  - reflexivity.
  - simpl. destruct (timeStep <=? 0); [reflexivity |].
    destruct (0 <? wrap64 (ticks + 1)); [| apply IH].
    destruct (wrap64 _ =? 0); [reflexivity |].
    destruct (Z.rem _ _ =? 0); [reflexivity | apply IH].
  - rewrite polling_cancel. simpl filter. apply IH.
Qed.

(** X15.  With a time step that is not positive the Poll handler panics
    when it creates its ticker, whatever the interval, the tick count and
    the signals. *)
Theorem poll_needs_positive_time_step c interval ticksCount uh :
  TimeStep uh <= 0 ->
  PollState_Handle c interval ticksCount uh
  = Panicked "non-positive interval for NewTicker".
Proof.
  intros H. unfold PollState_Handle.
  change (TimeStep (record _ uh)) with (TimeStep uh).
  replace (polling (TimeStep uh) interval (poll_signals c (trace uh))
             ticksCount) with TickerPanic; [reflexivity |].
  apply Z.leb_le in H.
  destruct (poll_signals c (trace uh)) as [|[|] rest]; simpl;
    now rewrite H.
Qed.

Lemma poll_needs_positive_time_step_witness :
  PollState_Handle all_good (10 * Second) 0
    (mkUpdateHub (settings0 0) "" 0 [])
  = Panicked "non-positive interval for NewTicker".
Proof.
  apply (poll_needs_positive_time_step all_good (10 * Second) 0
           (mkUpdateHub (settings0 0) "" 0 [])).
  simpl. lia.
Defined.

(** X16.  The extra polling interval after the update check: when the
    handler returns a Poll state, the probe gave no descriptor and a
    positive extra poll, the Poll state has that interval and no ticks,
    the same interval is stored as extra_polling_interval and the retries
    are 0; when it returns any other state, extra_polling_interval is
    0. *)
Theorem update_check_extra_poll c fuel uh s' uh' :
  UpdateCheckState_Handle c fuel uh = Returned (s', uh') ->
  let probe :=
    Controller_CheckUpdate c (trace uh) (PollingRetries (settings uh)) in
  (forall interval ticksCount,
     s' = PollState interval ticksCount ->
     probe = (None, interval) /\ 0 < interval /\ ticksCount = 0 /\
     ExtraPollingInterval (settings uh') = interval /\
     PollingRetries (settings uh') = 0) /\
  (ID s' <> UpdateHubStatePoll -> ExtraPollingInterval (settings uh') = 0).
Proof.
  intros H; probe_cases H; split;
    try (intros interval ticksCount Hs; inversion Hs; subst);
    try (intros Hid; simpl in *; congruence);
    repeat split; try reflexivity; try (now apply Z.ltb_lt).
  apply Z.ltb_lt in E0. sentinel. lia.
Qed.

(** X17.  With a positive interval, the projected next poll that the loop
    of the update check ends with lies on the grid of the polls:
    it is the start plus a whole number of intervals, it is not before now,
    it is less than one interval after now when the start was before now,
    and it is the start itself otherwise. *)
Theorem advance_nextPoll_on_grid fuel interval now :
  0 < interval ->
  forall start t,
    advance_nextPoll fuel interval now start = Some t ->
    (exists k : nat, t = start + Z.of_nat k * interval) /\
    now <= t /\
    (start < now -> t < now + interval) /\
    (now <= start -> t = start).
Proof.
  intros Hpos. unfold Time in *.
  induction fuel as [|fuel IH]; intros start t H; simpl in H;
    unfold Time_Before in H;
    destruct (Z.ltb_spec start now) as [Hlt | Hge]; try discriminate;
    try (inversion H; subst; repeat split; try lia; exists 0%nat; lia).
  apply IH in H. unfold Time_Add in H.
  destruct H as [[k Hk] [Hnow [Hnear Hsame]]].
  repeat split; try lia. exists (S k). lia.
Qed.

Lemma advance_nextPoll_on_grid_witness :
  (exists k : nat, 100 = 0 + Z.of_nat k * 10) /\
  95 <= 100 /\ (0 < 95 -> 100 < 95 + 10) /\ (95 <= 0 -> 100 = 0).
Proof.
  exact (advance_nextPoll_on_grid 20 10 95 eq_refl 0 100 eq_refl).
Defined.

(** X18.  After the update check has returned Idle, the Idle handler of an
    agent with polling enabled starts a regular poll: it returns a Poll
    state with the polling interval and no ticks, and writes no setting. *)
Theorem idle_after_update_check_polls c fuel uh uh1 :
  UpdateCheckState_Handle c fuel uh = Returned (IdleState, uh1) ->
  PollingEnabled (settings uh) = true ->
  fst (IdleState_Handle c uh1) = PollState (PollingInterval (settings uh)) 0
  /\ settings (snd (IdleState_Handle c uh1)) = settings uh1.
Proof.
  intros H Hen.
  assert (Hx : ExtraPollingInterval (settings uh1) = 0 /\
               PollingEnabled (settings uh1) = true /\
               PollingInterval (settings uh1) = PollingInterval (settings uh)).
  { probe_cases H; rewrite Hen; auto. }
  destruct Hx as [Hx [Hen1 Hi]].
  unfold IdleState_Handle, Now. rewrite Hen1. simpl.
  rewrite Hx. simpl. unfold NewPollState. simpl. rewrite Hi. auto.
Qed.

(** X19.  The Idle handler goes straight to the update check exactly when
    polling is enabled, an extra polling interval is set, and the last poll
    plus that interval lies before now; with polling disabled it does not
    even read the clock. *)
Theorem idle_checks_iff_extra_poll_overdue c uh :
  (fst (IdleState_Handle c uh) = UpdateCheckState <->
   PollingEnabled (settings uh) = true /\
   0 < ExtraPollingInterval (settings uh) /\
   LastPoll (settings uh) + ExtraPollingInterval (settings uh)
   < time_Now c (trace uh)) /\
  (PollingEnabled (settings uh) = false ->
   IdleState_Handle c uh = (IdleState, record (EvWait IdleState) uh)).
Proof.
  unfold IdleState_Handle, Now, Time_Before, Time_Add, NewPollState.
  destruct (PollingEnabled (settings uh)); simpl.
  - split; [| discriminate].
    destruct (Z.ltb_spec 0 (ExtraPollingInterval (settings uh)));
      destruct (Z.ltb_spec (LastPoll (settings uh)
                            + ExtraPollingInterval (settings uh))
                           (time_Now c (trace uh)));
      simpl; split; intros; try discriminate; try tauto; try lia.
    all: destruct H1 as [_ [? ?]]; unfold Time, Duration in *; lia.
  - split; [| reflexivity]. split; [discriminate | intros [? _]].
    discriminate.
Qed.

Lemma update_check_extra_poll_witness :
  ExtraPollingInterval (settings after_early_extra_poll) = 3 * Second /\
  PollingRetries (settings after_early_extra_poll) = 0.
Proof.
  pose proof (proj1 (update_check_extra_poll early_extra_poll 10
                       (agent 3 "") (PollState (3 * Second) 0)
                       after_early_extra_poll eq_refl)
                _ _ eq_refl) as H.
  split; apply H.
Defined.

Lemma idle_after_update_check_polls_witness :
  fst (IdleState_Handle all_good after_idle_check)
  = PollState (PollingInterval (settings (agent 3 ""))) 0 /\
  settings (snd (IdleState_Handle all_good after_idle_check))
  = settings after_idle_check.
Proof.
  exact (idle_after_update_check_polls all_good 0 (agent 3 "")
           after_idle_check eq_refl eq_refl).
Defined.

(** ** More on the client, and the sha256 check *)

Lemma processUpgradeResponse_error NewUpdateMetadata res r e :
  Client.processUpgradeResponse NewUpdateMetadata res = (r, Some e) ->
  r = None.
Proof.
  unfold Client.processUpgradeResponse.
  destruct (Client.BodyReadError res); [now inversion 1 |].
  destruct (Client.StatusCode res =? Client.StatusOK).
  - destruct (NewUpdateMetadata _); now inversion 1.
  - destruct (Client.StatusCode res =? Client.StatusNotFound);
      now inversion 1.
Qed.

(** X20.  A probe that returns an error returns nothing else: no
    descriptor and a zero extra poll, whatever went wrong (no requester,
    the request, the exchange, the body, the status, the descriptor or the
    header). *)
Theorem probe_error_has_no_result (Data ApiClient : Type) NewUpdateMetadata
    json_Marshal serverURL http_NewRequest
    (api : option (Client.ApiRequester ApiClient)) uri (data : Data) r d e :
  Client.CheckUpdate Data ApiClient NewUpdateMetadata json_Marshal
    serverURL http_NewRequest api uri data = (r, d, Some e) ->
  r = None /\ d = 0.
Proof.
  unfold Client.CheckUpdate. intros H.
  destruct api as [api|]; [| now inversion H].
  destruct (http_NewRequest _ _ _) as [req|]; [| now inversion H].
  destruct (Client.Do api _) as [res|]; [| now inversion H].
  destruct (Client.processUpgradeResponse _ res) as [r' [e'|]] eqn:Ep.
  - apply processUpgradeResponse_error in Ep. inversion H; subst. auto.
  - destruct (Client.Header res !! "Add-Extra-Poll") as [v|];
      [destruct (Client.ParseInt _) |]; now inversion H.
Qed.

Lemma probe_error_has_no_result_witness :
  @None UpdateMetadata = None /\ 0 = 0.
Proof.
  exact (probe_error_has_no_result unit unit (fun _ => inl single_um)
           (fun _ => "{}") (fun _ uri => uri) plain_request
           (Some (server (no_update ["soon"]))) "/upgrades" tt
           None 0 "failed to parse extra poll header" eq_refl).
Defined.

(** X21.  A probe that returns without error went through: the requester
    was there, the request was built, the server answered and the body was
    read; and either the status was 200 and the descriptor returned is the
    parsed body, or the status was 404 and no descriptor is returned. *)
Theorem probe_success_is_200_or_404 (Data ApiClient : Type)
    NewUpdateMetadata json_Marshal serverURL http_NewRequest
    (api : option (Client.ApiRequester ApiClient)) uri (data : Data) r d :
  Client.CheckUpdate Data ApiClient NewUpdateMetadata json_Marshal
    serverURL http_NewRequest api uri data = (r, d, None) ->
  exists requester req res,
    api = Some requester /\
    http_NewRequest "POST" (serverURL (Client.api_Client requester) uri)
      (json_Marshal data) = inl req /\
    Client.Do requester
      (Client.set_Header "Content-Type" "application/json" req) = inl res /\
    Client.BodyReadError res = None /\
    ((Client.StatusCode res = 200 /\
      exists um, r = Some um /\ NewUpdateMetadata (Client.Body res) = inl um)
     \/ (Client.StatusCode res = 404 /\ r = None)).
Proof.
  unfold Client.CheckUpdate. intros H.
  destruct api as [api|]; [| discriminate].
  destruct (http_NewRequest _ _ _) as [req|] eqn:Ereq; [| discriminate].
  destruct (Client.Do api _) as [res|] eqn:Edo; [| discriminate].
  exists api, req, res. repeat (split; [reflexivity || assumption |]).
  assert (Hr : exists r', Client.processUpgradeResponse NewUpdateMetadata res
                          = (r', None) /\ r = r').
  { destruct (Client.processUpgradeResponse _ res) as [r' [e'|]];
      [discriminate |].
    exists r'. split; [reflexivity |].
    destruct (Client.Header res !! "Add-Extra-Poll") as [v|];
      [destruct (Client.ParseInt _) |]; now inversion H. }
  destruct Hr as [r' [Hp ->]]. clear H.
  unfold Client.processUpgradeResponse in Hp.
  destruct (Client.BodyReadError res); [discriminate |].
  split; [reflexivity |].
  destruct (Z.eqb_spec (Client.StatusCode res) Client.StatusOK) as [Hok | _].
  - left. split; [exact Hok |].
    destruct (NewUpdateMetadata _) as [um|]; inversion Hp; eauto.
  - destruct (Z.eqb_spec (Client.StatusCode res) Client.StatusNotFound)
      as [Hnf | _]; inversion Hp. right. auto.
Qed.

Lemma probe_success_is_200_or_404_witness :
  exists requester req res,
    Some (server (no_update ["300"])) = Some requester /\
    plain_request "POST" "/upgrades" "{}" = inl req /\
    Client.Do requester
      (Client.set_Header "Content-Type" "application/json" req) = inl res /\
    Client.BodyReadError res = None /\
    ((Client.StatusCode res = 200 /\
      exists um, @None UpdateMetadata = Some um /\
                 @inl UpdateMetadata string single_um = inl um)
     \/ (Client.StatusCode res = 404 /\ @None UpdateMetadata = None)).
Proof.
  exact (probe_success_is_200_or_404 unit unit (fun _ => inl single_um)
           (fun _ => "{}") (fun _ uri => uri) plain_request
           (Some (server (no_update ["300"]))) "/upgrades" tt
           None 300 eq_refl).
Defined.

(** X22.  [FetchUpdate] returns a body exactly when it returns no error;
    with an error the length is -1; it closes the body of the response
    only when it returns an error, and then only if a response arrived;
    and without error the server answered 200, and the body and the length
    returned are those of the response. *)
Theorem FetchUpdate_result (ApiClient : Type) serverURL http_NewRequest
    ContentLength (api : option (Client.ApiRequester ApiClient)) uri :
  let fetched :=
    FetchUpdate ApiClient serverURL http_NewRequest ContentLength api uri in
  (fetched_error fetched = None <-> fetched_body fetched <> None) /\
  (fetched_error fetched <> None -> fetched_length fetched = -1) /\
  (body_closed fetched = true -> fetched_error fetched <> None) /\
  (fetched_error fetched = None ->
   exists requester req res,
     api = Some requester /\
     http_NewRequest "GET" (serverURL (Client.api_Client requester) uri) ""
     = inl req /\
     Client.Do requester req = inl res /\
     Client.StatusCode res = 200 /\
     fetched_body fetched = Some (Client.Body res) /\
     fetched_length fetched = ContentLength res).
Proof.
  unfold FetchUpdate.
  destruct api as [api|]; simpl;
    [| repeat split; intros; try discriminate; congruence].
  destruct (http_NewRequest _ _ _) as [req|] eqn:Ereq; simpl;
    [| repeat split; intros; try discriminate; congruence].
  destruct (Client.Do api req) as [res|] eqn:Edo; simpl;
    [| repeat split; intros; try discriminate; congruence].
  destruct (Z.eqb_spec (Client.StatusCode res) Client.StatusOK) as [Hok | _];
    simpl; repeat split; intros; try discriminate; try congruence.
  exists api, req, res. auto 10.
Qed.

(** X23.  The sha256 check of a downloaded object passes exactly when the
    file named after the expected sum in the download directory can be
    read and hashes to that sum; an error of reading the file is returned
    as it is. *)
Theorem sha256_check_passes_iff_file_matches FileSha256sum path_Join
    downloadDir expectedSha256sum :
  (Sha256CheckerImpl_CheckDownloadedObjectSha256sum FileSha256sum path_Join
     downloadDir expectedSha256sum = None <->
   FileSha256sum (path_Join downloadDir expectedSha256sum)
   = (expectedSha256sum, None)) /\
  (forall calculated e,
     FileSha256sum (path_Join downloadDir expectedSha256sum)
     = (calculated, Some e) ->
     Sha256CheckerImpl_CheckDownloadedObjectSha256sum FileSha256sum
       path_Join downloadDir expectedSha256sum = Some e).
Proof.
  unfold Sha256CheckerImpl_CheckDownloadedObjectSha256sum.
  destruct (FileSha256sum _) as [calculated [e|]]; split.
  - split; discriminate.
  - intros ? ? H. now inversion H.
  - destruct (String.eqb_spec calculated expectedSha256sum) as [-> | Hne];
      simpl; split; intros H; try reflexivity; try discriminate.
    inversion H. contradiction.
  - discriminate.
Qed.

Lemma StateToString_int_cases k :
  (k < 1 \/ 9 < k) /\ StateToString_int k = "" \/
  k = 1 /\ StateToString_int k = "idle" \/
  k = 2 /\ StateToString_int k = "poll" \/
  k = 3 /\ StateToString_int k = "update-check" \/
  k = 4 /\ StateToString_int k = "downloading" \/
  k = 5 /\ StateToString_int k = "installing" \/
  k = 6 /\ StateToString_int k = "installed" \/
  k = 7 /\ StateToString_int k = "waiting-for-reboot" \/
  k = 8 /\ StateToString_int k = "exit" \/
  k = 9 /\ StateToString_int k = "error".
Proof.
  destruct (Z.lt_ge_cases k 1) as [Hlo | Hlo];
    [| destruct (Z.lt_ge_cases 9 k) as [Hhi | Hhi]].
  - left. split; [auto |]. unfold StateToString_int, statusNames.
    rewrite !lookup_insert_ne by lia. now rewrite lookup_empty.
  - left. split; [auto |]. unfold StateToString_int, statusNames.
    rewrite !lookup_insert_ne by lia. now rewrite lookup_empty.
  - right.
    assert (Hk : k = 1 \/ k = 2 \/ k = 3 \/ k = 4 \/ k = 5 \/ k = 6 \/
                 k = 7 \/ k = 8 \/ k = 9) by lia.
    repeat destruct Hk as [-> | Hk]; try subst k;
      repeat (try (left; split; reflexivity); right);
      split; reflexivity.
Qed.

(** X24.  [StateToString] on the integer that a state is: the name is
    empty exactly for the integers outside 1..9, the value 0 of the dummy
    state among them; on 1..9 distinct integers have distinct names; the
    name of each constant is the one the map gives to its value; and the
    name of the state of every handler is not empty. *)
Theorem StateToString_injective :
  (forall k, StateToString_int k = "" <-> k < 1 \/ 9 < k) /\
  (forall a b, 1 <= a <= 9 -> 1 <= b <= 9 ->
     StateToString_int a = StateToString_int b -> a = b) /\
  (forall status,
     StateToString status = StateToString_int (UpdateHubState_value status))
  /\
  (forall s : State, StateToString_int (UpdateHubState_value (ID s)) <> "").
Proof.
  split; [| split; [| split]].
  - intros k. split; intros H;
      destruct (StateToString_int_cases k)
        as [[Hk E] | [[Hk E] | [[Hk E] | [[Hk E] | [[Hk E] | [[Hk E] | [[Hk E] | [[Hk E] | [[Hk E] | [Hk E]]]]]]]]]];
      try (rewrite E in H; discriminate); try assumption; lia.
  - intros a b Ha Hb H.
    destruct (StateToString_int_cases a)
      as [[Hka Ea] | [[Hka Ea] | [[Hka Ea] | [[Hka Ea] | [[Hka Ea] | [[Hka Ea] | [[Hka Ea] | [[Hka Ea] | [[Hka Ea] | [Hka Ea]]]]]]]]]];
      try lia;
      destruct (StateToString_int_cases b)
        as [[Hkb Eb] | [[Hkb Eb] | [[Hkb Eb] | [[Hkb Eb] | [[Hkb Eb] | [[Hkb Eb] | [[Hkb Eb] | [[Hkb Eb] | [[Hkb Eb] | [Hkb Eb]]]]]]]]]];
      try lia; congruence.
  - intros []; reflexivity.
  - intros []; discriminate.
Qed.

(** ** The sha256 check in the install pipeline *)

Lemma install_objects_answered c um i objects :
  forall uh st uh',
    install_objects c um i objects uh = (st, uh') ->
    exists evs,
      trace uh' = trace uh ++ evs /\
      sha_checks_answered c (DownloadDir (settings uh)) (trace uh) evs.
Proof.
  induction objects as [|o rest IH]; intros uh st uh' H; simpl in H.
  - inversion H; subst. exists []. split; [apply app_nil_end' | exact I].
  - oracle_cases H;
      try (apply IH in H; destruct H as [evs [Ht Ha]]; simpl in Ha;
           rewrite Ht; simpl; rewrite <- ?app_assoc; simpl);
      try (inversion H; subst; simpl; rewrite <- ?app_assoc; simpl);
      (eexists; split; [reflexivity |]); simpl; auto 10.
Qed.

Lemma InstallingState_Handle_answered c um uh st uh' :
  InstallingState_Handle c um uh = Returned (st, uh') ->
  exists evs,
    trace uh' = trace uh ++ evs /\
    sha_checks_answered c (DownloadDir (settings uh)) (trace uh) evs.
Proof.
  unfold InstallingState_Handle, GetIndexOfObjectToBeInstalled. intros H.
  destruct (_ =? _)%string.
  { inversion H; subst. exists []. split; [apply app_nil_end' | exact I]. }
  destruct (CheckSupportedHardware _ _ _) as [e|].
  { inversion H; subst. eexists [_]. simpl. auto. }
  simpl in H. destruct ((_ <? 1) || _).
  { inversion H; subst. eexists [_]. simpl. auto. }
  destruct (_ =? 2).
  - destruct (activeInactive_Active _ _) as [a [e|]].
    { inversion H; subst. eexists [_; _]. simpl.
      rewrite <- app_assoc. auto. }
    destruct (index_Objects _ _) as [objects|]; [| discriminate].
    inversion H as [Hrun]. apply install_objects_answered in Hrun.
    destruct Hrun as [evs [Ht Ha]]. simpl in *.
    exists (EvCheckSupportedHardware um None :: EvActive a None :: evs).
    rewrite Ht, <- !app_assoc. simpl. auto.
  - destruct (index_Objects _ _) as [objects|]; [| discriminate].
    inversion H as [Hrun]. apply install_objects_answered in Hrun.
    destruct Hrun as [evs [Ht Ha]]. simpl in *.
    exists (EvCheckSupportedHardware um None :: evs).
    rewrite Ht, <- !app_assoc. simpl. auto.
Qed.

Lemma ordered_setup prev pre o serr post :
  ordered prev (pre ++ EvSetup o serr :: post) ->
  (pre = [] /\ prev = Some (EvCheckSha256sum o None)) \/
  exists pre', pre = pre' ++ [EvCheckSha256sum o None].
Proof.
  revert prev. induction pre as [|x pre IH]; intros prev H; simpl in H.
  - left. tauto.
  - right. destruct H as [_ H]. destruct (IH _ H) as [[-> Hx] | [p ->]].
    + inversion Hx; subst. now exists [].
    + now exists (x :: p).
Qed.

Lemma sha_checks_answered_at c dir pre :
  forall history o err post,
    sha_checks_answered c dir history (pre ++ EvCheckSha256sum o err :: post)
    -> err = CheckDownloadedObjectSha256sum c (history ++ pre) dir
               (Sha256sum o).
Proof.
  induction pre as [|x pre IH]; intros history o err post H; simpl in H.
  - rewrite app_nil_r. tauto.
  - destruct H as [_ H]. apply IH in H. now rewrite <- app_assoc in H.
Qed.

(** X25.  With [Sha256CheckerImpl] as the checker of the install, Setup is
    called for an object only right after its sha256 check, and at that
    check the file named after the sum of the object in the download
    directory hashed to that sum. *)
Theorem setup_only_for_matching_files c
    (FileSha256sum : list Event -> string -> string * error) path_Join
    um uh st uh' evs :
  (forall history dir sum,
     CheckDownloadedObjectSha256sum c history dir sum
     = Sha256CheckerImpl_CheckDownloadedObjectSha256sum
         (FileSha256sum history) path_Join dir sum) ->
  InstallingState_Handle c um uh = Returned (st, uh') ->
  trace uh' = trace uh ++ evs ->
  forall pre o serr post,
    evs = pre ++ EvSetup o serr :: post ->
    exists pre',
      pre = pre' ++ [EvCheckSha256sum o None] /\
      FileSha256sum (trace uh ++ pre')
        (path_Join (DownloadDir (settings uh)) (Sha256sum o))
      = (Sha256sum o, None).
Proof.
  intros Himpl Hrun Ht pre o serr post Hevs.
  pose proof (InstallingState_Handle_answered _ _ _ _ _ Hrun)
    as [evs1 [Ht1 Hans]].
  apply InstallingState_Handle_calls in Hrun.
  destruct Hrun as [[_ [_ ->]] | [_ [_ [_ [_ [_ [evs2 [Ht2 [Hord _]]]]]]]]].
  { rewrite (app_nil_end' (trace uh)) in Ht at 1.
    apply app_inv_head in Ht. subst evs. destruct pre; discriminate. }
  rewrite Ht in Ht1, Ht2. apply app_inv_head in Ht1, Ht2. subst evs1 evs2.
  rewrite Hevs in Hord, Hans.
  destruct (ordered_setup _ _ _ _ _ Hord) as [[_ Hno] | [pre' ->]];
    [discriminate |].
  exists pre'. split; [reflexivity |].
  rewrite <- app_assoc in Hans. simpl in Hans.
  apply sha_checks_answered_at in Hans. symmetry in Hans.
  rewrite Himpl in Hans.
  unfold Sha256CheckerImpl_CheckDownloadedObjectSha256sum in Hans.
  destruct (FileSha256sum _ _) as [calculated [e|]]; [discriminate |].
  destruct (String.eqb_spec calculated (Sha256sum o)) as [Heq | _];
    [now rewrite Heq | discriminate].
Qed.

Lemma setup_only_for_matching_files_witness :
  exists pre',
    [EvCheckSupportedHardware single_um None; EvCheckSha256sum objA None]
    = pre' ++ [EvCheckSha256sum objA None] /\
    one_file "/tmp/download/aaaa" "aaaa"
      (join_slash (DownloadDir (settings (agent 0 ""))) (Sha256sum objA))
    = (Sha256sum objA, None).
Proof.
  exact (setup_only_for_matching_files checked_download
           (fun _ => one_file "/tmp/download/aaaa" "aaaa") join_slash
           single_um (agent 0 "") (InstalledState single_um)
           installed_single (trace installed_single)
           (fun _ _ _ => eq_refl) eq_refl eq_refl
           [EvCheckSupportedHardware single_um None;
            EvCheckSha256sum objA None]
           objA None
           [EvProceed objA true None; EvInstall objA None;
            EvCleanup objA None]
           eq_refl).
Defined.

(** ** More on the update check, the probe and the loop *)

(** X26.  Whatever state the update check returns, it called the probe
    once, with the retries at entry, read the clock after the probe
    returned and stored that time as last_poll; it reads the clock a
    second time only to schedule an extra poll, and makes no other
    call. *)
Theorem update_check_probes_once c fuel uh s' uh' :
  UpdateCheckState_Handle c fuel uh = Returned (s', uh') ->
  let retries := PollingRetries (settings uh) in
  let probe := Controller_CheckUpdate c (trace uh) retries in
  let called := EvCheckUpdate retries (fst probe) (snd probe) in
  let t := time_Now c (trace uh ++ [called]) in
  LastPoll (settings uh') = t /\
  (trace uh' = trace uh ++ [called; EvNow t] \/
   (0 < snd probe /\ fst probe = None /\
    exists t', trace uh' = trace uh ++ [called; EvNow t; EvNow t'])).
Proof.
  intros H; probe_cases H; rewrite <- ?app_assoc; simpl;
    split; try reflexivity; auto;
    right; (split; [now apply Z.ltb_lt |]); eauto.
Qed.

Lemma update_check_probes_once_witness :
  LastPoll (settings after_early_extra_poll)
  = time_Now early_extra_poll
      (trace (agent 3 "") ++ [EvCheckUpdate 3 None (3 * Second)]).
Proof.
  apply (update_check_probes_once early_extra_poll 10 (agent 3 "")
           (PollState (3 * Second) 0) after_early_extra_poll eq_refl).
Defined.




Lemma Handle_exit_panic c fuel s uh :
  Handle c fuel s uh = Panicked "ExitState handler should not be called" ->
  ID s = UpdateHubStateExit.
Proof.
  destruct s; simpl; try discriminate; try reflexivity.
  - unfold PollState_Handle. destruct (polling _ _ _ _); discriminate.
  - unfold UpdateCheckState_Handle, Now.
    destruct (Controller_CheckUpdate _ _ _) as [[um|] extraPoll]; simpl;
      [discriminate |].
    destruct (0 <? extraPoll); [| discriminate].
    destruct (advance_nextPoll _ _ _ _); [| discriminate].
    destruct (Time_Before _ _); discriminate.
  - unfold InstallingState_Handle.
    destruct (_ =? _)%string; [discriminate |].
    destruct (CheckSupportedHardware _ _ _); [discriminate |].
    destruct (GetIndexOfObjectToBeInstalled _ _ _) as [[i [e|]] uh1];
      [discriminate |].
    destruct (index_Objects _ _); discriminate.
Qed.

(** X28.  The daemon loop calls the handler of an Exit state only if it is
    started in one: a run that panics with "ExitState handler should not be
    called" was started in an Exit state, and a run started in an Exit
    state panics so at once. *)
Theorem exit_handler_called_only_at_start c :
  forall fuel state uh,
    (Daemon_Run c fuel state uh
     = Panicked "ExitState handler should not be called" ->
     ID state = UpdateHubStateExit) /\
    (ID state = UpdateHubStateExit ->
     Daemon_Run c (S fuel) state uh
     = Panicked "ExitState handler should not be called").
Proof.
  intros fuel state uh. split.
  - revert state uh. induction fuel as [|fuel IH]; intros state uh H;
      simpl in H; [discriminate |].
    destruct (Handle _ _ _ _) as [[next uh1] | msg |] eqn:Eh;
      [| inversion H; subst; exact (Handle_exit_panic _ _ _ _ Eh)
       | discriminate].
    destruct (daemon_stop c (trace uh1) || _) eqn:Estop.
    + destruct next; discriminate.
    + apply IH in H. apply orb_false_iff in Estop.
      destruct Estop as [_ Hne]. rewrite H in Hne. discriminate.
  - destruct state; simpl; intros H; try discriminate. reflexivity.
Qed.
